(** * be-analytics: the driving-distance service, embedded and verified

    A shallow embedding of [backend/schemas/drivingdistance.py],
    [backend/models/drivingdistance.py], [backend/database.py] and
    [backend/routers/drivingdistance_routes.py].

    Conventions of the embedding:
    - a handler that raises is a handler that returns a non-[Ok] [result];
    - a SQLAlchemy session is an explicit state: the committed table, the
      sequence behind the primary key, the rows written but not yet
      committed, and the instances whose attributes were assigned in memory;
    - calendar dates are proleptic Gregorian ordinals ([date.toordinal]),
      timestamps are microseconds of wall-clock reading since
      0001-01-01T00:00:00 together with an optional UTC offset;
    - [Numeric(10, 2)] distances are integers counting hundredths. *)

From Stdlib Require Import ZArith List String Ascii Bool Arith Lia.
From Stdlib Require Import Sorting.Sorted Sorting.Permutation.
From Stdlib Require Import DecimalString.
Import ListNotations.

Set Implicit Arguments.
Unset Strict Implicit.

(* ================================================================== *)
(** * Python-level vocabulary *)
(* ================================================================== *)

Module Py.

(** What a handler or a library call produces: a value, an
    [HTTPException] raised by the handler, or any other exception (which
    the framework turns into a bare 500 when nothing catches it). *)
Inductive result (A : Type) : Type :=
| Ok (a : A)
| HTTPException (status_code : Z) (detail : string)
| Raise (exc : string).

Arguments Ok {A} a.
Arguments HTTPException {A} status_code detail.
Arguments Raise {A} exc.

Definition bind {A B} (m : result A) (k : A -> result B) : result B :=
  match m with
  | Ok a => k a
  | HTTPException s d => HTTPException s d
  | Raise e => Raise e
  end.

(** [range(start, stop, step)] for a positive step.  At most [stop]
    iterations are ever needed, which is the fuel. *)
Fixpoint range_from (fuel start stop step : nat) : list nat :=
  match fuel with
  | O => []
  | S fuel' =>
      if start <? stop
      then start :: range_from fuel' (start + step) stop step
      else []
  end.

Definition range (start stop step : nat) : list nat :=
  range_from stop start stop step.

(** [xs[start:stop]] for [0 <= start <= stop]. *)
Definition slice {A} (xs : list A) (start stop : nat) : list A :=
  firstn (stop - start) (skipn start xs).

(** A handler body: it reads and updates a state and may raise. *)
Definition M (S A : Type) : Type := S -> result A * S.

Definition ret {S A} (a : A) : M S A := fun s => (Ok a, s).

Definition lift {S A} (r : result A) : M S A := fun s => (r, s).

Definition bindM {S A B} (m : M S A) (k : A -> M S B) : M S B :=
  fun s =>
    match m s with
    | (Ok a, s') => k a s'
    | (HTTPException c d, s') => (HTTPException c d, s')
    | (Raise e, s') => (Raise e, s')
    end.

Definition modify {S} (f : S -> S) : M S unit := fun s => (Ok tt, f s).

(** [for x in xs: body(x)], collecting what each round leaves in place
    of [x]. *)
Fixpoint forM {S A B} (xs : list A) (body : A -> M S B) : M S (list B) :=
  match xs with
  | [] => ret []
  | x :: xs' =>
      bindM (body x) (fun y =>
      bindM (forM xs' body) (fun ys => ret (y :: ys)))
  end.

(** [str(e)] of a Starlette [HTTPException]: ["{status_code}: {detail}"]. *)
Definition str_HTTPException (s : Z) (d : string) : string :=
  (NilZero.string_of_int (Z.to_int s) ++ ": " ++ d)%string.

End Py.
Export Py.

Declare Scope py_scope.
Delimit Scope py_scope with py.
Notation "x <- m ;; k" := (Py.bind m (fun x => k))
  (at level 61, m at next level, right associativity) : py_scope.
Notation "x <<- m ;; k" := (Py.bindM m (fun x => k))
  (at level 61, m at next level, right associativity) : py_scope.
Notation "m ;;; k" := (Py.bindM m (fun _ => k))
  (at level 61, right associativity) : py_scope.
Open Scope string_scope.
Open Scope py_scope.
Open Scope Z_scope.

(* ================================================================== *)
(** * [datetime]: dates, timestamps, fixed-offset zones *)
(* ================================================================== *)

Module Datetime.

(** A [timedelta], in microseconds. *)
Definition timedelta := Z.

Definition hours (h : Z) : timedelta := h * 3600 * 1000000.

(** [date]: the proleptic Gregorian ordinal, 0001-01-01 being day 1. *)
Definition date := Z.

Definition is_leap (y : Z) : bool :=
  ((y mod 4 =? 0) && negb (y mod 100 =? 0)) || (y mod 400 =? 0).

Definition days_before_year (y : Z) : Z :=
  let p := y - 1 in p * 365 + p / 4 - p / 100 + p / 400.

Definition days_in_month (y m : Z) : Z :=
  if m =? 2 then (if is_leap y then 29 else 28)
  else if (m =? 4) || (m =? 6) || (m =? 9) || (m =? 11) then 30
  else 31.

Fixpoint days_before_month_from (fuel : nat) (y m : Z) : Z :=
  match fuel with
  | O => 0
  | S fuel' =>
      if 1 <? m
      then days_in_month y (m - 1) + days_before_month_from fuel' y (m - 1)
      else 0
  end.

Definition days_before_month (y m : Z) : Z :=
  days_before_month_from 12 y m.

(** [date(y, m, d).toordinal()]. *)
Definition ymd (y m d : Z) : date :=
  days_before_year y + days_before_month y m + d.

(** [datetime]: the wall-clock reading and the zone attached to it, if
    any.  [tzinfo = None] is a naive datetime; [Some off] is an aware
    one whose zone is the fixed offset [off]. *)
Record datetime : Type := mk_datetime {
  wall : Z;
  tzinfo : option timedelta
}.

Definition us_per_day : Z := 86400 * 1000000.

(** [datetime.min] and [datetime.max] as wall-clock readings:
    0001-01-01T00:00:00 and 9999-12-31T23:59:59.999999. *)
Definition min_wall : Z := 0.
Definition max_wall : Z := 3652059 * us_per_day - 1.

Definition in_range (w : Z) : bool := (min_wall <=? w) && (w <=? max_wall).

(** [datetime(y, mo, d, h, mi, s)], naive. *)
Definition naive (y mo d h mi s : Z) : datetime :=
  {| wall := (ymd y mo d - 1) * us_per_day
             + ((h * 60 + mi) * 60 + s) * 1000000;
     tzinfo := None |}.

(** [timezone.utc] and a fixed-offset [timezone(timedelta(...))] are
    represented by their offset. *)
Definition utc : timedelta := 0.

(** [dt.replace(tzinfo=tz)]: the reading is kept, the zone is swapped. *)
Definition replace_tzinfo (dt : datetime) (tz : timedelta) : datetime :=
  {| wall := wall dt; tzinfo := Some tz |}.

(** [dt + delta], which raises [OverflowError] outside
    [datetime.min .. datetime.max]. *)
Definition add (dt : datetime) (delta : timedelta) : result datetime :=
  if in_range (wall dt + delta)
  then Ok {| wall := wall dt + delta; tzinfo := tzinfo dt |}
  else Raise "OverflowError: date value out of range".

(** [dt.astimezone(tz)] for an aware [dt] whose zone has offset
    [myoffset]: [utc = (dt - myoffset).replace(tzinfo=tz)] followed by
    [tz.fromutc(utc)], that is [utc + tz]. *)
Definition astimezone (dt : datetime) (myoffset tz : timedelta)
  : result datetime :=
  u <- add dt (- myoffset) ;;
  add (replace_tzinfo u tz) tz.

(** The instant an aware reading denotes, in microseconds of UTC. *)
Definition instant (w : Z) (off : timedelta) : Z := w - off.

End Datetime.
Import Datetime.

(* ================================================================== *)
(** * The query layer: what the emitted SQL computes on a table *)
(* ================================================================== *)

(** The backing store is PostgreSQL ([database.py] probes it with
    [current_database()]).  Three of its rules are used below: [WHERE]
    keeps a row only when the condition is true, so a comparison with
    NULL drops the row; [ORDER BY ... ASC] lists NULL after every value;
    a negative [LIMIT] is refused.  Strings are compared bytewise.

    Two things the store leaves open or bounds are fixed here by choice.
    Rows that compare equal under [ORDER BY] come in no promised order;
    [order_by] keeps them in table order, and no statement below is to
    be read as saying which of them comes first.  [LIMIT] is a 64-bit
    integer, and the store refuses a larger one; [limit] takes any
    integer that is not negative, and the statements that say what a
    request is answered with bound the limit by [2 ^ 63]. *)
Module Sql.

Section OrderBy.
Variable A : Type.
Variable leb : A -> A -> bool.

Fixpoint insert_by (x : A) (l : list A) : list A :=
  match l with
  | [] => [x]
  | y :: l' => if leb x y then x :: l else y :: insert_by x l'
  end.

Definition order_by (l : list A) : list A :=
  fold_right insert_by [] l.

(** The order [leb] decides, as a relation. *)
Definition le_of (a b : A) : Prop := leb a b = true.
End OrderBy.

(** [col ASC] over a nullable column. *)
Definition asc (K : Type) (leb : K -> K -> bool) (a b : option K) : bool :=
  match a, b with
  | _, None => true
  | None, Some _ => false
  | Some x, Some y => leb x y
  end.

Definition limit (A : Type) (n : Z) (l : list A) : result (list A) :=
  if n <? 0
  then Raise "DataError: LIMIT must not be negative"
  else Ok (firstn (Z.to_nat n) l).

Definition eq_nullable (a b : option string) : bool :=
  match a, b with
  | Some x, Some y => String.eqb x y
  | None, None => true
  | _, _ => false
  end.

(** [SELECT DISTINCT]: one representative of every value, NULL being
    one value. *)
Fixpoint distinct (l : list (option string)) : list (option string) :=
  match l with
  | [] => []
  | x :: l' => x :: filter (fun y => negb (eq_nullable x y)) (distinct l')
  end.

(** [SUM(col)]: NULL inputs are skipped, and the sum of no input is
    NULL. *)
Fixpoint sum (l : list (option Z)) : option Z :=
  match l with
  | [] => None
  | None :: l' => sum l'
  | Some v :: l' =>
      match sum l' with
      | Some t => Some (v + t)
      | None => Some v
      end
  end.

End Sql.

(* ================================================================== *)
(** * [models/drivingdistance.py] *)
(* ================================================================== *)

Module Models.

(** A row of table [drivingdistance], and the ORM instance loaded from
    it.  Every column but the primary key is nullable. *)
Record DrivingDistance : Type := {
  id : Z;
  plate_number : option string;
  truck_number : option string;
  gps_vendor : option string;
  date : option Datetime.date;
  distance : option Z;
  created_at : option datetime
}.

Definition set_created_at (r : DrivingDistance) (v : option datetime)
  : DrivingDistance :=
  {| id := id r; plate_number := plate_number r;
     truck_number := truck_number r; gps_vendor := gps_vendor r;
     date := date r; distance := distance r; created_at := v |}.

End Models.

Abbreviation DrivingDistance := Models.DrivingDistance.

(* ================================================================== *)
(** * [schemas/drivingdistance.py] *)
(* ================================================================== *)

Module Schemas.

(** What the [created_at] validator can be handed in ["before"] mode. *)
Inductive value : Type :=
| VNone
| VStr (s : string)
| VDatetime (dt : datetime).

Definition bangkok_tz : timedelta := hours 7.

Definition convert_to_bangkok (v : value) : result value :=
  match v with
  | VDatetime dt =>
      let off := match tzinfo dt with
                 | None => utc          (* value.replace(tzinfo=timezone.utc) *)
                 | Some off => off
                 end in
      r <- astimezone (replace_tzinfo dt off) off bangkok_tz ;;
      Ok (VDatetime r)
  | _ => Ok v
  end.

(** [DrivingDistanceCreate], once validated.  [distance] is a float in
    the source and the column holds two decimal places: the field stands
    for the value the store keeps of it, in hundredths, and the rounding
    that takes the float there is not modelled. *)
Record DrivingDistanceCreate : Type := {
  plate_number : string;
  truck_number : string;
  gps_vendor : string;
  date : Datetime.date;
  distance : Z;
  created_at : option datetime
}.

End Schemas.

Abbreviation DrivingDistanceCreate := Schemas.DrivingDistanceCreate.

(* ================================================================== *)
(** * [database.py]: the store and the session handed to a handler *)
(* ================================================================== *)

Module Database.

(** The [DB_MAIN] database as the service sees it: the committed rows
    of [drivingdistance] in table order, and the next value of the
    sequence behind [id]. *)
Record Store : Type := {
  table : list DrivingDistance;
  next_id : Z
}.

(** A session: the store it is bound to, the rows its open transaction
    has written, and the loaded instances whose attributes were
    assigned since the last commit (as they now read in memory). *)
Record Session : Type := {
  store : Store;
  pending : list DrivingDistance;
  dirty : list DrivingDistance
}.

(** [get_db]: a fresh session on the configured store. *)
Definition get_db (s : Store) : Session :=
  {| store := s; pending := []; dirty := [] |}.

(** The rows a query of this session reads ([autoflush=False]: the
    assigned attributes are not written before the query). *)
Definition rows (db : Session) : list DrivingDistance :=
  table (store db) ++ pending db.

(** Assigning an attribute of a loaded instance. *)
Definition assign (db : Session) (r : DrivingDistance) : Session :=
  {| store := store db;
     pending := pending db;
     dirty := r :: filter (fun d => negb (Models.id d =? Models.id r))
                     (dirty db) |}.

Definition flushed (ds : list DrivingDistance) (r : DrivingDistance)
  : DrivingDistance :=
  match find (fun d => Models.id d =? Models.id r) ds with
  | Some d => d
  | None => r
  end.

(** [db.commit()]: assigned attributes are flushed as UPDATEs, and the
    transaction, with the rows it wrote, becomes durable. *)
Definition commit (db : Session) : Session :=
  {| store := {| table := map (flushed (dirty db)) (rows db);
                 next_id := next_id (store db) |};
     pending := [];
     dirty := [] |}.

(** [db.rollback()], which is also what [db.close()] does to an open
    transaction.  A sequence does not take back the values it gave. *)
Definition rollback (db : Session) : Session :=
  {| store := store db; pending := []; dirty := [] |}.

Definition close (db : Session) : Store := store (rollback db).

(** One INSERT: the sequence gives the [id]; [created_at] falls back to
    the server default [now()] when the instance has none.  A timestamp
    that is supplied is kept as it was given: the column keeps its
    instant, and the zone the driver hands it back in is left out. *)
Definition insert_row (now : datetime) (next : Z) (c : DrivingDistanceCreate)
  : DrivingDistance :=
  {| Models.id := next;
     Models.plate_number := Some (Schemas.plate_number c);
     Models.truck_number := Some (Schemas.truck_number c);
     Models.gps_vendor := Some (Schemas.gps_vendor c);
     Models.date := Some (Schemas.date c);
     Models.distance := Some (Schemas.distance c);
     Models.created_at := match Schemas.created_at c with
                          | Some t => Some t
                          | None => Some now
                          end |}.

Fixpoint insert_rows (now : datetime) (next : Z)
         (cs : list DrivingDistanceCreate) : list DrivingDistance :=
  match cs with
  | [] => []
  | c :: cs' => insert_row now next c :: insert_rows now (next + 1) cs'
  end.

(** [db.bulk_save_objects(records)]: the INSERTs are emitted at once,
    inside the open transaction, in the order of [records]. *)
Definition bulk_save_objects (now : datetime) (db : Session)
           (records : list DrivingDistanceCreate) : Session :=
  {| store := {| table := table (store db);
                 next_id := next_id (store db)
                            + Z.of_nat (List.length records) |};
     pending := pending db ++ insert_rows now (next_id (store db)) records;
     dirty := dirty db |}.

(** What the store does to one chunk of a bulk insert.  [now] is the
    transaction's timestamp. *)
Inductive fate : Type :=
| Healthy (now : datetime)
| WriteFails (now : datetime) (written : nat) (cause : string)
| CommitFails (now : datetime) (cause : string)
| QueryFails (now : datetime) (cause : string).

End Database.
Import Database.

(* ================================================================== *)
(** * [routers/drivingdistance_routes.py] *)
(* ================================================================== *)

(** A handler is embedded as the function of its arguments and of the
    session [get_db] hands it; what it returns is the value FastAPI then
    serialises through the declared [response_model].  Of the log only
    the lines of the bulk handler are kept: they tell the chunks apart. *)
Module Routes.

Definition BKK_TZ : timedelta := hours 7.

(** ** Column expressions *)

(** [DrivingDistance.plate_number.in_(values)]. *)
Definition in_ (values : list string) (r : DrivingDistance) : bool :=
  match Models.plate_number r with
  | Some p => existsb (String.eqb p) values
  | None => false
  end.

(** [DrivingDistance.date >= d] and [DrivingDistance.date <= d]. *)
Definition date_ge (d : Datetime.date) (r : DrivingDistance) : bool :=
  match Models.date r with
  | Some x => d <=? x
  | None => false
  end.

Definition date_le (d : Datetime.date) (r : DrivingDistance) : bool :=
  match Models.date r with
  | Some x => x <=? d
  | None => false
  end.

Definition and_ (f g : DrivingDistance -> bool) (r : DrivingDistance) : bool :=
  f r && g r.

(** [query.filter] applied to the unpacked [filters]: their conjunction. *)
Definition filter_ (filters : list (DrivingDistance -> bool))
           (query : list DrivingDistance) : list DrivingDistance :=
  filter (fun r => forallb (fun f => f r) filters) query.

Definition date_asc (a b : DrivingDistance) : bool :=
  Sql.asc Z.leb (Models.date a) (Models.date b).

Definition id_desc (a b : DrivingDistance) : bool :=
  Models.id b <=? Models.id a.

(** ** POST /bulk *)

Inductive log_record : Type :=
| Starting (total : nat)
| Inserting (first last : nat)
| Completed (total : nat)
| Failed (e : string).

(** The state of the bulk handler: the session and the log written so
    far. *)
Definition bulk_state : Type := (Session * list log_record)%type.

Definition info (l : log_record) : M bulk_state unit :=
  modify (fun st => (fst st, (snd st ++ [l])%list)).

Definition on_session (f : Session -> Session) : M bulk_state unit :=
  modify (fun st => (f (fst st), snd st)).

(** Lines 52-62 for one chunk: write, commit, read back. *)
Definition save_and_fetch (f : fate) (batch : list DrivingDistanceCreate)
  : M bulk_state (list DrivingDistance) :=
  match f with
  | WriteFails now written cause =>
      on_session (fun db => bulk_save_objects now db (firstn written batch)) ;;;
      lift (Raise cause)
  | CommitFails now cause =>
      on_session (fun db => bulk_save_objects now db batch) ;;;
      lift (Raise cause)
  | QueryFails now cause =>
      on_session (fun db => bulk_save_objects now db batch) ;;;
      on_session commit ;;;
      lift (Raise cause)
  | Healthy now =>
      on_session (fun db => bulk_save_objects now db batch) ;;;
      on_session commit ;;;
      (fun st =>
         (Sql.limit (Z.of_nat (List.length batch))
                    (Sql.order_by id_desc (rows (fst st))), st))
  end.

(** The [for start in range(0, total, batch_size)] loop; [k] counts the
    chunks begun so far. *)
Fixpoint insert_batches (world : nat -> fate)
         (payload : list DrivingDistanceCreate) (total batch_size : nat)
         (starts : list nat) (k : nat)
         (inserted_records : list DrivingDistance)
  : M bulk_state (list DrivingDistance) :=
  match starts with
  | [] => ret inserted_records
  | start :: starts' =>
      let end_ := Nat.min (start + batch_size) total in
      let batch := slice payload start end_ in
      info (Inserting (start + 1) end_) ;;;
      last_batch <<- save_and_fetch (world k) batch ;;
      insert_batches world payload total batch_size starts' (S k)
                     (last_batch ++ inserted_records)%list
  end.

(** [world k] is what the store does to the chunk numbered [k].  The
    [match] on the outcome of the loop is the [try ... except Exception]
    around it: any exception, an [HTTPException] included, is caught. *)
Definition create_large_bulk_records (world : nat -> fate)
           (payload : list DrivingDistanceCreate)
  : M bulk_state (list DrivingDistance) :=
  let total := List.length payload in
  if (total =? 0)%nat
  then lift (HTTPException 400 "No records provided.")
  else
    info (Starting total) ;;;
    let batch_size := 2000%nat in
    let inserted_records := [] in
    fun st =>
      match
        (inserted_records <<-
           insert_batches world payload total batch_size
                          (range 0 total batch_size) 0 inserted_records ;;
         info (Completed total) ;;;
         ret (rev inserted_records)) st
      with
      | (Ok records, st') => (Ok records, st')
      | (HTTPException c d, st') =>
          let e := str_HTTPException c d in
          (on_session rollback ;;;
           info (Failed e) ;;;
           lift (HTTPException 500 ("Database insert failed: " ++ e))) st'
      | (Raise e, st') =>
          (on_session rollback ;;;
           info (Failed e) ;;;
           lift (HTTPException 500 ("Database insert failed: " ++ e))) st'
      end.

(** ** The filter model of POST /filter and POST /sumdistance *)

Record DrivingDistanceFilter : Type := {
  plate_number : option (list string);
  start_at : option Datetime.date;
  end_at : option Datetime.date;
  limit : Z
}.

(** ** POST /filter *)

Definition filter_driving_distance (payload : DrivingDistanceFilter)
  : M Session (list DrivingDistance) :=
  fun db =>
  let query := rows db in
  let filters := [] in
  let filters :=
    match plate_number payload with
    | Some ((_ :: _) as plates) => (filters ++ [in_ plates])%list
    | _ => filters
    end in
  let filters :=
    match start_at payload, end_at payload with
    | Some s, Some e => (filters ++ [and_ (date_ge s) (date_le e)])%list
    | Some s, None => (filters ++ [date_ge s])%list
    | None, Some e => (filters ++ [date_le e])%list
    | None, None => filters
    end in
  let query :=
    match filters with
    | [] => query
    | _ :: _ => filter_ filters query
    end in
  (records <<- lift (Sql.limit (limit payload)
                               (Sql.order_by date_asc query)) ;;
   match records with
   | [] => lift (HTTPException 404 "No matching records found")
   | _ :: _ =>
       forM records (fun record =>
         match Models.created_at record with
         | Some t =>
             t' <<- lift (astimezone (replace_tzinfo t utc) utc BKK_TZ) ;;
             let record := Models.set_created_at record (Some t') in
             modify (fun db => assign db record) ;;;
             ret record
         | None => ret record
         end)
   end) db.

(** ** GET / *)

Definition get_driving_distance_records
           (plate_number : option (list string))
           (start_at end_at : option Datetime.date) (limit : Z)
  : M Session (list DrivingDistance) :=
  fun db =>
  let query := rows db in
  let filters := [] in
  let filters :=
    match plate_number with
    | Some ((_ :: _) as plates) => (filters ++ [in_ plates])%list
    | _ => filters
    end in
  let filters :=
    match start_at, end_at with
    | Some s, Some e => (filters ++ [and_ (date_ge s) (date_le e)])%list
    | Some s, None => (filters ++ [date_ge s])%list
    | None, Some e => (filters ++ [date_le e])%list
    | None, None => filters
    end in
  let query :=
    match filters with
    | [] => query
    | _ :: _ => filter_ filters query
    end in
  (records <<- lift (Sql.limit limit (Sql.order_by date_asc query)) ;;
   match records with
   | [] => lift (HTTPException 404 "No matching records found")
   | _ :: _ =>
       forM records (fun record =>
         match Models.created_at record with
         | Some t =>
             t' <<- lift (astimezone (replace_tzinfo t utc) utc BKK_TZ) ;;
             let record := Models.set_created_at record (Some t') in
             modify (fun db => assign db record) ;;;
             ret record
         | None => ret record
         end)
   end) db.

(** ** POST /sumdistance *)

(** One row of the grouped query: the plate and [SUM(distance)]. *)
Definition grouped_row : Type := (option string * option Z)%type.

(** [query.group_by(DrivingDistance.plate_number)] under the select list
    [plate_number, func.sum(distance)]. *)
Definition group_by_plate_number (query : list DrivingDistance)
  : list grouped_row :=
  map (fun k =>
         (k, Sql.sum (map Models.distance
                          (filter (fun r =>
                                     Sql.eq_nullable (Models.plate_number r) k)
                                  query))))
      (Sql.distinct (map Models.plate_number query)).

Definition plate_asc (a b : grouped_row) : bool :=
  Sql.asc String.leb (fst a) (fst b).

Record summary_row : Type := {
  summary_plate_number : option string;
  total_distance : Z;
  summary_start_at : option Datetime.date;
  summary_end_at : option Datetime.date
}.

(** The response body; [period] holds the two bounds its string
    interpolates. *)
Record summary_response : Type := {
  period : option Datetime.date * option Datetime.date;
  summary : list summary_row
}.

(** [float(x or 0)] on a nullable decimal: NULL and a zero decimal are
    both falsy.  The conversion to a float is not modelled: the total
    stays a count of hundredths. *)
Definition float_or_0 (x : option Z) : Z :=
  match x with
  | Some v => if v =? 0 then 0 else v
  | None => 0
  end.

Definition summarize_distance (payload : DrivingDistanceFilter)
  : M Session summary_response :=
  fun db =>
  let query := rows db in
  let filters := [] in
  let filters :=
    match plate_number payload with
    | Some ((_ :: _) as plates) => (filters ++ [in_ plates])%list
    | _ => filters
    end in
  let filters :=
    match start_at payload, end_at payload with
    | Some s, Some e => (filters ++ [and_ (date_ge s) (date_le e)])%list
    | Some s, None => (filters ++ [date_ge s])%list
    | None, Some e => (filters ++ [date_le e])%list
    | None, None => filters
    end in
  let query :=
    match filters with
    | [] => query
    | _ :: _ => filter_ filters query
    end in
  let results := Sql.order_by plate_asc (group_by_plate_number query) in
  match results with
  | [] => (HTTPException 404 "No records found for summary", db)
  | _ :: _ =>
      let summary :=
        map (fun r =>
               {| summary_plate_number := fst r;
                  total_distance := float_or_0 (snd r);
                  summary_start_at := start_at payload;
                  summary_end_at := end_at payload |})
            results in
      (Ok {| period := (start_at payload, end_at payload);
             summary := summary |}, db)
  end.

(** ** GET /platenumber *)

Record plates_response : Type := {
  count : nat;
  plates : list string
}.

(** Truthiness of a fetched [plate_number]: NULL and the empty string
    are falsy. *)
Definition truthy (p : option string) : bool :=
  match p with
  | Some s => negb (String.eqb s "")
  | None => false
  end.

(** [[p[0] for p in plates if p[0]]]. *)
Fixpoint truthy_plates (plates : list (option string)) : list string :=
  match plates with
  | [] => []
  | Some s :: plates' =>
      if truthy (Some s) then s :: truthy_plates plates'
      else truthy_plates plates'
  | None :: plates' => truthy_plates plates'
  end.

(** [try_] is the body of the [try] block; the [match] on its outcome is
    the [except Exception] clause, which the 404 raised inside does not
    escape. *)
Definition get_unique_plate_numbers : M Session plates_response :=
  fun db =>
  let try_ : M Session plates_response :=
    fun db =>
    let plates :=
      Sql.order_by (Sql.asc String.leb)
                   (Sql.distinct (map Models.plate_number (rows db))) in
    let unique_plates := truthy_plates plates in
    match unique_plates with
    | [] => (HTTPException 404 "No plate numbers found", db)
    | _ :: _ =>
        (Ok {| count := List.length unique_plates;
               plates := unique_plates |}, db)
    end in
  match try_ db with
  | (Ok r, db') => (Ok r, db')
  | (HTTPException c d, db') =>
      (HTTPException 500 ("Error retrieving plate numbers: "
                          ++ str_HTTPException c d), db')
  | (Raise e, db') =>
      (HTTPException 500 ("Error retrieving plate numbers: " ++ e), db')
  end.

End Routes.
Import Routes.

(* ================================================================== *)
(** * The list handlers, cut at the point where the query is built *)
(* ================================================================== *)

Module Steps.

(** Lines 127-129 and 177-179: one round of the loop over [records]. *)
Definition localize (record : DrivingDistance) : M Session DrivingDistance :=
  match Models.created_at record with
  | Some t =>
      t' <<- lift (astimezone (replace_tzinfo t utc) utc BKK_TZ) ;;
      let record := Models.set_created_at record (Some t') in
      modify (fun db => assign db record) ;;;
      ret record
  | None => ret record
  end.

(** Lines 121-132 and 171-182: order, limit, fetch, 404 on nothing,
    rewrite [created_at] in place, return. *)
Definition fetch_and_localize (limit : Z) (query : list DrivingDistance)
  : M Session (list DrivingDistance) :=
  records <<- lift (Sql.limit limit (Sql.order_by date_asc query)) ;;
  match records with
  | [] => lift (HTTPException 404 "No matching records found")
  | _ :: _ => forM records localize
  end.

End Steps.
Import Steps.

(* ================================================================== *)
(** * Vocabulary of the specification *)
(* ================================================================== *)

(** What the specification speaks of, in its own terms: the predicates of
    a filter (4.1), the per-plate sum (4.2), the chunks of a batch and the
    records submitted (4.3), the data-model invariant on [id] (3). *)
Module Spec.

(** The offset Time Normalization reads a timestamp at: its own zone,
    or UTC when it has none. *)
Definition assumed_offset (dt : datetime) : timedelta :=
  match tzinfo dt with
  | None => utc
  | Some off => off
  end.

(** A record with the one attribute the list handlers rewrite in memory
    blanked: what a returned record and the stored row it was loaded
    from have in common. *)
Definition stored_part (r : DrivingDistance) : DrivingDistance :=
  Models.set_created_at r None.

(** The plate predicate of a filter: active only for a non-empty set. *)
Definition plate_ok (payload : DrivingDistanceFilter) (r : DrivingDistance)
  : Prop :=
  match plate_number payload with
  | None | Some [] => True
  | Some plates =>
      exists p, Models.plate_number r = Some p /\ In p plates
  end.

(** The date predicate of a filter, in its four cases. *)
Definition date_ok (payload : DrivingDistanceFilter) (r : DrivingDistance)
  : Prop :=
  match start_at payload, end_at payload with
  | Some s, Some e => exists d, Models.date r = Some d /\ s <= d <= e
  | Some s, None => exists d, Models.date r = Some d /\ s <= d
  | None, Some e => exists d, Models.date r = Some d /\ d <= e
  | None, None => True
  end.

(** The same two predicates, decided. *)
Definition satisfies (payload : DrivingDistanceFilter) (r : DrivingDistance)
  : bool :=
  (match plate_number payload with
   | None | Some [] => true
   | Some plates =>
       match Models.plate_number r with
       | Some p => existsb (String.eqb p) plates
       | None => false
       end
   end)
  &&
  (match start_at payload, end_at payload, Models.date r with
   | Some s, Some e, Some d => (s <=? d) && (d <=? e)
   | Some s, None, Some d => s <=? d
   | None, Some e, Some d => d <=? e
   | None, None, _ => true
   | _, _, None => false
   end).

(** The records a filter selects from a table, before any limit. *)
Definition matching (payload : DrivingDistanceFilter)
           (table : list DrivingDistance) : list DrivingDistance :=
  filter (satisfies payload) table.

(** A record's [distance], a null one counting for zero. *)
Definition distance_or_0 (r : DrivingDistance) : Z :=
  match Models.distance r with
  | Some v => v
  | None => 0
  end.

(** The arithmetic sum of [distance] over the records of one plate. *)
Definition sum_of_plate (p : option string) (records : list DrivingDistance)
  : Z :=
  fold_right Z.add 0
    (map distance_or_0
         (filter (fun r => Sql.eq_nullable (Models.plate_number r) p)
                 records)).

(** A store as the service finds it: every [id] came from the sequence. *)
Definition store_wf (s : Store) : Prop :=
  Forall (fun r => Models.id r < next_id s) (table s).

(** A stored row carries what was submitted for it. *)
Definition submitted (c : DrivingDistanceCreate) (r : DrivingDistance)
  : Prop :=
  Models.plate_number r = Some (Schemas.plate_number c)
  /\ Models.truck_number r = Some (Schemas.truck_number c)
  /\ Models.gps_vendor r = Some (Schemas.gps_vendor c)
  /\ Models.date r = Some (Schemas.date c)
  /\ Models.distance r = Some (Schemas.distance c).

(** The number of chunks of size [size] a batch of [n] records falls
    into: [n / size] rounded up. *)
Definition chunk_count (n size : nat) : nat := ((n + size - 1) / size)%nat.

(** The log lines of the first [m] chunks of a batch of [n] records: each
    names the positions, counted from 1, of its first and last record. *)
Definition chunk_lines (n size m : nat) : list log_record :=
  map (fun j => Inserting (j * size + 1) (Nat.min (j * size + size) n))
      (seq 0 m).

(** The transaction timestamp of a chunk. *)
Definition now_of (f : fate) : datetime :=
  match f with
  | Healthy now => now
  | WriteFails now _ _ => now
  | CommitFails now _ => now
  | QueryFails now _ => now
  end.

(** The rows written for the chunks starting at [starts], the chunk
    numbered [k] coming first and the sequence standing at [next]. *)
Fixpoint chunk_rows (world : nat -> fate)
         (payload : list DrivingDistanceCreate) (total size : nat)
         (starts : list nat) (k : nat) (next : Z) : list DrivingDistance :=
  match starts with
  | [] => []
  | start :: starts' =>
      let batch := slice payload start (Nat.min (start + size) total) in
      (insert_rows (now_of (world k)) next batch
       ++ chunk_rows world payload total size starts' (S k)
                     (next + Z.of_nat (List.length batch)))%list
  end.

(** [n] values of the sequence, from [next] on. *)
Definition consecutive (next : Z) (n : nat) : list Z :=
  map (fun i => next + Z.of_nat i) (seq 0 n).

(** A session with no transaction open and nothing assigned. *)
Definition idle (tbl : list DrivingDistance) (next : Z) : Session :=
  {| store := {| table := tbl; next_id := next |};
     pending := [];
     dirty := [] |}.

(** What the loop logs for the chunks starting at [starts]. *)
Definition inserting (total size : nat) (starts : list nat)
  : list log_record :=
  map (fun start => Inserting (start + 1) (Nat.min (start + size) total))
      starts.

(** Ascending by date, as the specification means it: an earlier date
    before a later one, and a record without a date after every record
    that has one. *)
Definition date_before (a b : DrivingDistance) : Prop :=
  match Models.date a, Models.date b with
  | Some x, Some y => x <= y
  | _, None => True
  | None, Some _ => False
  end.

End Spec.
Import Spec.

(* ================================================================== *)
(** * Sample stores and requests *)
(* ================================================================== *)

Module Examples.

Definition row (i : Z) (plate : string) (d : Datetime.date) (dist : Z)
           (t : option datetime) : DrivingDistance :=
  {| Models.id := i;
     Models.plate_number := Some plate;
     Models.truck_number := Some "T-01";
     Models.gps_vendor := Some "vendor";
     Models.date := Some d;
     Models.distance := Some dist;
     Models.created_at := t |}.

(** "A1" on 06-05 (distance 10) and on 06-20 (distance 5), "B2" on
    06-05. *)
Definition june_store : Store :=
  {| table := [ row 1 "A1" (ymd 2025 6 20) 500
                    (Some (naive 2025 6 20 23 0 0));
                row 2 "B2" (ymd 2025 6 5) 700
                    (Some (naive 2025 6 5 23 0 0));
                row 3 "A1" (ymd 2025 6 5) 1000
                    (Some (naive 2025 6 1 10 0 0)) ];
     next_id := 4 |}.

Definition june_criteria : DrivingDistanceFilter :=
  {| plate_number := Some ["A1"];
     start_at := Some (ymd 2025 6 1);
     end_at := Some (ymd 2025 6 15);
     limit := 500 |}.

(** No plate set, no bound, at most one record. *)
Definition first_only : DrivingDistanceFilter :=
  {| plate_number := None; start_at := None; end_at := None; limit := 1 |}.

Definition candidate (n : nat) : DrivingDistanceCreate :=
  {| Schemas.plate_number := "A1";
     Schemas.truck_number := "T-01";
     Schemas.gps_vendor := "vendor";
     Schemas.date := ymd 2025 6 1 + Z.of_nat n;
     Schemas.distance := 100 * Z.of_nat n;
     Schemas.created_at := None |}.

(** [n] candidates, told apart by their date and distance. *)
Definition candidates (n : nat) : list DrivingDistanceCreate :=
  map candidate (seq 0 n).

Definition noon : datetime := naive 2025 6 1 12 0 0.

(** A store that serves every chunk. *)
Definition healthy (_ : nat) : fate := Healthy noon.

(** A store whose commit fails on the chunk numbered [k]. *)
Definition commit_fails_at (k : nat) (j : nat) : fate :=
  if (j =? k)%nat then CommitFails noon "connection reset" else Healthy noon.

(** Five rows on five different dates. *)
Definition week_store : Store :=
  {| table := [ row 1 "A1" (ymd 2025 6 9) 900
                    (Some (naive 2025 6 9 23 0 0));
                row 2 "B2" (ymd 2025 6 3) 300 None;
                row 3 "A1" (ymd 2025 6 5) 500
                    (Some (naive 2025 6 5 23 0 0));
                row 4 "A1" (ymd 2025 6 7) 700 None;
                row 5 "A1" (ymd 2025 6 20) 2000 None ];
     next_id := 6 |}.

(** "A1" in the first half of June, two records at most. *)
Definition two_of_june : DrivingDistanceFilter :=
  {| plate_number := Some ["A1"];
     start_at := Some (ymd 2025 6 1);
     end_at := Some (ymd 2025 6 15);
     limit := 2 |}.

End Examples.

(* ================================================================== *)
(** * [auth.py] *)
(* ================================================================== *)

Module Auth.

(** Truthiness of what [os.getenv] gave: [None] and the empty string are
    falsy. *)
Definition truthy_env (v : option string) : bool :=
  match v with
  | Some s => negb (String.eqb s "")
  | None => false
  end.

(** [x_token != API_TOKEN], a string against what [os.getenv] gave. *)
Definition ne_token (x_token : string) (API_TOKEN : option string) : bool :=
  match API_TOKEN with
  | Some t => negb (String.eqb x_token t)
  | None => true
  end.

Definition verify_token (API_TOKEN : option string) (x_token : string)
  : result unit :=
  if negb (truthy_env API_TOKEN)
  then HTTPException 500 "Server misconfigured: API_TOKEN not set in .env"
  else if ne_token x_token API_TOKEN
  then HTTPException 401 "Invalid or missing API token"
  else Ok tt.

End Auth.

(* ================================================================== *)
(** * [database.py]: the URLs, the session factories, [get_db] by key *)
(* ================================================================== *)

(** The module body is embedded as a function of the environment
    [os.getenv] reads and of [create_engine], which gives the engine of a
    URL, here the store behind it, or raises (a URL it cannot parse, a
    dialect or driver it does not have).  An exception raised while the
    module body runs aborts the import, and then there is no [get_db]. *)
Module Engines.

Definition DB_URLS (getenv : string -> option string)
  : list (string * option string) :=
  [ ("DB_MAIN", getenv "DB_MAIN");
    ("DB_ANALYTICS", getenv "DB_ANALYTICS") ].

(** [s.split(sep)] for a one-character separator. *)
Fixpoint split (sep : ascii) (s : string) : list string :=
  match s with
  | EmptyString => [EmptyString]
  | String c s' =>
      if Ascii.eqb c sep
      then EmptyString :: split sep s'
      else match split sep s' with
           | w :: ws => String c w :: ws
           | [] => [String c EmptyString]
           end
  end.

(** [val.split('@')[-1]]: what the start-up report shows of a URL. *)
Definition shown (val : string) : string :=
  List.last (split "@" val) EmptyString.

Inductive report_line : Type :=
| Shown (key host : string)
| Missing (key : string).

(** Lines 27-32: one line for every key of [DB_URLS]. *)
Definition report (urls : list (string * option string)) : list report_line :=
  map (fun kv =>
         match snd kv with
         | Some val =>
             if Auth.truthy_env (Some val)
             then Shown (fst kv) (shown val)
             else Missing (fst kv)
         | None => Missing (fst kv)
         end)
      urls.

(** [d[key] = v] and [d.get(key)] on a dict kept in insertion order. *)
Fixpoint setitem (V : Type) (d : list (string * V)) (key : string) (v : V)
  : list (string * V) :=
  match d with
  | [] => [(key, v)]
  | (k, w) :: d' =>
      if String.eqb k key then (k, v) :: d' else (k, w) :: setitem d' key v
  end.

Fixpoint get (V : Type) (d : list (string * V)) (key : string) : option V :=
  match d with
  | [] => None
  | (k, w) :: d' => if String.eqb k key then Some w else get d' key
  end.

(** Lines 37-54: an engine and a session factory, here the store the
    engine leads to, for every key whose URL is truthy.  The first
    [create_engine] that raises ends the loop, and the import. *)
Fixpoint factories (create_engine : string -> result Store)
         (urls : list (string * option string))
         (SessionFactories : list (string * Store))
  : result (list (string * Store)) :=
  match urls with
  | [] => Ok SessionFactories
  | (key, url) :: urls' =>
      match url with
      | Some u =>
          if Auth.truthy_env (Some u)
          then match create_engine u with
               | Ok engine =>
                   factories create_engine urls'
                             (setitem SessionFactories key engine)
               | HTTPException c d => HTTPException c d
               | Raise e => Raise e
               end
          else factories create_engine urls' SessionFactories
      | None => factories create_engine urls' SessionFactories
      end
  end.

(** What importing the module leaves in [SessionFactories], or the
    exception the import dies of. *)
Definition SessionFactories (getenv : string -> option string)
           (create_engine : string -> result Store)
  : result (list (string * Store)) :=
  factories create_engine (DB_URLS getenv) [].

(** [get_db(db_key)] up to its [yield], in a process whose import left
    [SessionFactories]: the session, or [ValueError]. *)
Definition get_db (SessionFactories : list (string * Store))
           (db_key : string) : result Session :=
  match get SessionFactories db_key with
  | Some engine => Ok (Database.get_db engine)
  | None =>
      Raise ("ValueError: Database '" ++ db_key ++ "' is not configured.")
  end.

End Engines.

(* ================================================================== *)
(** * Timestamps on their way out *)
(* ================================================================== *)

Module Outbound.

(** The expression of lines 129 and 179, on one timestamp. *)
Definition route_to_bangkok (t : datetime) : result datetime :=
  astimezone (replace_tzinfo t utc) utc BKK_TZ.

(** What one round of the list handlers' loop leaves in place of a
    record, the session apart. *)
Definition localized (record : DrivingDistance) : result DrivingDistance :=
  match Models.created_at record with
  | Some t =>
      t' <- route_to_bangkok t ;;
      Ok (Models.set_created_at record (Some t'))
  | None => Ok record
  end.

(** The value the [created_at] validator of the response model is handed
    for a record. *)
Definition created_at_value (r : DrivingDistance) : Schemas.value :=
  match Models.created_at r with
  | Some t => Schemas.VDatetime t
  | None => Schemas.VNone
  end.

(** The sum of [distance] over records, a null one counting for zero. *)
Definition total_of (records : list DrivingDistance) : Z :=
  fold_right Z.add 0 (map distance_or_0 records).

(** A table in which no two rows share an [id]. *)
Definition unique_ids (tbl : list DrivingDistance) : Prop :=
  NoDup (map Models.id tbl).

End Outbound.
Import Outbound.

(* ================================================================== *)
(** * Facts about the query layer *)
(* ================================================================== *)

Section OrderByFacts.
Variable A : Type.
Variable leb : A -> A -> bool.

Lemma insert_by_perm (x : A) (l : list A) :
  Permutation (x :: l) (Sql.insert_by leb x l).
Proof.
  induction l as [|y l IH]; simpl.
  - apply Permutation_refl.
  - destruct (leb x y).
    + apply Permutation_refl.
    + eapply perm_trans; [apply perm_swap|].
      now apply perm_skip.
Qed.

Lemma order_by_perm (l : list A) : Permutation l (Sql.order_by leb l).
Proof.
  induction l as [|x l IH]; simpl.
  - constructor.
  - eapply perm_trans; [apply perm_skip, IH|]. apply insert_by_perm.
Qed.

Lemma order_by_In (x : A) (l : list A) :
  In x (Sql.order_by leb l) <-> In x l.
Proof.
  split; intro H.
  - eapply Permutation_in; [apply Permutation_sym, order_by_perm|exact H].
  - eapply Permutation_in; [apply order_by_perm|exact H].
Qed.

Lemma order_by_length (l : list A) :
  List.length (Sql.order_by leb l) = List.length l.
Proof. symmetry. apply Permutation_length, order_by_perm. Qed.

Lemma order_by_nil (l : list A) : Sql.order_by leb l = [] -> l = [].
Proof.
  intro H. apply length_zero_iff_nil.
  rewrite <- order_by_length, H. reflexivity.
Qed.

Hypothesis leb_total : forall a b, leb a b = true \/ leb b a = true.

Lemma insert_by_HdRel (a x : A) (l : list A) :
  Sql.le_of leb a x -> HdRel (Sql.le_of leb) a l ->
  HdRel (Sql.le_of leb) a (Sql.insert_by leb x l).
Proof.
  intros Hax Hl. destruct l as [|y l]; simpl.
  - now constructor.
  - destruct (leb x y); constructor; trivial.
    now inversion Hl.
Qed.

Lemma insert_by_sorted (x : A) (l : list A) :
  Sorted (Sql.le_of leb) l -> Sorted (Sql.le_of leb) (Sql.insert_by leb x l).
Proof.
  induction 1 as [|y l Hs IH Hhd]; simpl.
  - repeat constructor.
  - destruct (leb x y) eqn:E.
    + constructor; [now constructor|now constructor].
    + constructor; [exact IH|].
      apply insert_by_HdRel; [|exact Hhd].
      destruct (leb_total x y) as [H|H]; [congruence|exact H].
Qed.

Lemma order_by_sorted (l : list A) :
  Sorted (Sql.le_of leb) (Sql.order_by leb l).
Proof.
  induction l as [|x l IH]; simpl.
  - constructor.
  - now apply insert_by_sorted.
Qed.
End OrderByFacts.

Lemma Sorted_firstn (A : Type) (R : A -> A -> Prop) (n : nat) (l : list A) :
  Sorted R l -> Sorted R (firstn n l).
Proof.
  revert l. induction n as [|n IH]; intros l Hs; simpl.
  - constructor.
  - destruct l as [|x l]; [constructor|].
    inversion Hs as [|? ? Hs' Hhd]; subst.
    constructor; [now apply IH|].
    destruct l as [|y l]; destruct n; simpl; constructor.
    now inversion Hhd.
Qed.

Lemma In_firstn (A : Type) (n : nat) (x : A) (l : list A) :
  In x (firstn n l) -> In x l.
Proof.
  intro H. rewrite <- (firstn_skipn n l). apply in_or_app. now left.
Qed.

Lemma Sorted_map_iff (A B : Type) (f : A -> B) (R : B -> B -> Prop)
      (l : list A) :
  Sorted (fun a b => R (f a) (f b)) l <-> Sorted R (map f l).
Proof.
  induction l as [|x l IH]; simpl.
  - split; constructor.
  - split; intro H; inversion H as [|? ? Hs Hhd]; subst.
    + constructor; [now apply IH|].
      destruct l; simpl; constructor. now inversion Hhd.
    + constructor; [now apply IH|].
      destruct l; simpl in *; constructor. now inversion Hhd.
Qed.

(* ================================================================== *)
(** * Time Normalization *)
(* ================================================================== *)

Lemma astimezone_in_range (dt : datetime) (off tz : timedelta) :
  in_range (wall dt - off) = true ->
  in_range (wall dt - off + tz) = true ->
  astimezone dt off tz = Ok {| wall := wall dt - off + tz; tzinfo := Some tz |}.
Proof.
  intros H1 H2. unfold astimezone, add; simpl.
  replace (wall dt + - off) with (wall dt - off) by lia.
  rewrite H1; simpl. rewrite H2. reflexivity.
Qed.

Lemma astimezone_out_of_range (dt : datetime) (off tz : timedelta) :
  in_range (wall dt - off) && in_range (wall dt - off + tz) = false ->
  astimezone dt off tz = Raise "OverflowError: date value out of range".
Proof.
  intros H. unfold astimezone, add; simpl.
  replace (wall dt + - off) with (wall dt - off) by lia.
  destruct (in_range (wall dt - off)); simpl in *; [|reflexivity].
  rewrite H. reflexivity.
Qed.

(** C6, as stated, fails: a naive timestamp in the last seven hours of
    year 9999 makes the conversion raise [OverflowError]. *)
Lemma convert_to_bangkok_overflows :
  Schemas.convert_to_bangkok (Schemas.VDatetime (naive 9999 12 31 20 0 0))
  = Raise "OverflowError: date value out of range".
Proof. vm_compute. reflexivity. Qed.

(** C6, amended: Time Normalization is a pure function whose only error
    is [OverflowError].  A timestamp is read at its own zone, or at UTC if
    it has none; when that instant and its UTC+7 reading both lie in
    [datetime.min .. datetime.max] the result is the same instant with the
    zone UTC+7, and otherwise the conversion raises.  A naive
    2025-06-01T10:00:00 becomes 2025-06-01T17:00:00+07:00, and null (like
    any value that is not a datetime) passes through. *)
Theorem convert_to_bangkok_spec :
  (forall dt : datetime,
      let off := assumed_offset dt in
      if in_range (wall dt - off) && in_range (wall dt - off + hours 7)
      then Schemas.convert_to_bangkok (Schemas.VDatetime dt)
           = Ok (Schemas.VDatetime {| wall := wall dt - off + hours 7;
                                      tzinfo := Some (hours 7) |})
           /\ instant (wall dt - off + hours 7) (hours 7)
              = instant (wall dt) off
      else Schemas.convert_to_bangkok (Schemas.VDatetime dt)
           = Raise "OverflowError: date value out of range")
  /\ Schemas.convert_to_bangkok (Schemas.VDatetime (naive 2025 6 1 10 0 0))
     = Ok (Schemas.VDatetime
             (replace_tzinfo (naive 2025 6 1 17 0 0) (hours 7)))
  /\ Schemas.convert_to_bangkok Schemas.VNone = Ok Schemas.VNone
  /\ (forall s, Schemas.convert_to_bangkok (Schemas.VStr s)
                = Ok (Schemas.VStr s)).
Proof.
  split; [|split; [vm_compute; reflexivity|split; reflexivity]].
  intros dt off.
  destruct (in_range (wall dt - off) && in_range (wall dt - off + hours 7))
    eqn:E.
  - apply andb_true_iff in E as [E1 E2]. split.
    + unfold Schemas.convert_to_bangkok. fold (assumed_offset dt). fold off.
      unfold Schemas.bangkok_tz.
      rewrite (@astimezone_in_range (replace_tzinfo dt off) off (hours 7));
        simpl; auto.
    + unfold instant. lia.
  - unfold Schemas.convert_to_bangkok. fold (assumed_offset dt). fold off.
    unfold Schemas.bangkok_tz.
    rewrite (@astimezone_out_of_range (replace_tzinfo dt off) off (hours 7));
      simpl; auto.
Qed.

(* ================================================================== *)
(** * Handler bodies: generic facts *)
(* ================================================================== *)

Lemma forM_invariant (S A B : Type) (P : S -> Prop) (body : A -> M S B)
      (xs : list A) :
  (forall x s, P s -> P (snd (body x s))) ->
  forall s, P s -> P (snd (forM xs body s)).
Proof.
  intro Hbody. induction xs as [|x xs IH]; intros s Hs; simpl.
  - exact Hs.
  - unfold bindM at 1.
    pose proof (Hbody x s Hs) as H1.
    destruct (body x s) as [[y|c d|e] s1]; simpl in *; trivial.
    unfold bindM.
    pose proof (IH s1 H1) as H2.
    destruct (forM xs body s1) as [[ys|c d|e] s2]; simpl in *; trivial.
Qed.

(* ================================================================== *)
(** * POST /bulk on an empty array *)
(* ================================================================== *)

(** C7: an empty array submitted to bulk ingestion is answered at once
    with HTTP 400; no chunk is begun, nothing is written or logged, and
    the session and its store are as they were. *)
Theorem bulk_empty_is_bad_input :
  forall (world : nat -> fate) (db : Session) (log : list log_record),
    create_large_bulk_records world [] (db, log)
    = (HTTPException 400 "No records provided.", (db, log)).
Proof. intros. reflexivity. Qed.

(* ================================================================== *)
(** * GET /platenumber *)
(* ================================================================== *)

Lemma eq_nullable_true (a b : option string) :
  Sql.eq_nullable a b = true <-> a = b.
Proof.
  destruct a as [x|], b as [y|]; simpl; split; intro H;
    try discriminate; try reflexivity.
  - apply String.eqb_eq in H. now subst.
  - inversion H. apply String.eqb_refl.
Qed.

Lemma distinct_In (x : option string) (l : list (option string)) :
  In x (Sql.distinct l) <-> In x l.
Proof.
  induction l as [|y l IH]; simpl; [tauto|].
  rewrite filter_In, IH.
  destruct (Sql.eq_nullable y x) eqn:E.
  - apply eq_nullable_true in E. subst. simpl. intuition discriminate.
  - assert (y <> x) by (intro; subst; rewrite (proj2 (eq_nullable_true x x)) in E;
                        [discriminate|reflexivity]).
    simpl. intuition.
Qed.

Lemma distinct_NoDup (l : list (option string)) : NoDup (Sql.distinct l).
Proof.
  induction l as [|y l IH]; simpl; constructor.
  - rewrite filter_In. intros [_ H].
    rewrite (proj2 (eq_nullable_true y y) eq_refl) in H. discriminate.
  - now apply NoDup_filter.
Qed.

Lemma truthy_plates_In (s : string) (l : list (option string)) :
  In s (truthy_plates l) <-> s <> "" /\ In (Some s) l.
Proof.
  induction l as [|[y|] l IH]; simpl.
  - tauto.
  - destruct (String.eqb y "") eqn:E; simpl.
    + apply String.eqb_eq in E. subst. rewrite IH.
      intuition; try congruence.
    + apply String.eqb_neq in E. rewrite IH. split.
      * intros [H|[H1 H2]]; [subst; auto|auto].
      * intros [H1 [H2|H2]]; [left; congruence|auto].
  - rewrite IH. intuition discriminate.
Qed.

Lemma truthy_plates_NoDup (l : list (option string)) :
  NoDup l -> NoDup (truthy_plates l).
Proof.
  induction 1 as [|[y|] l Hnin Hnd IH]; simpl; trivial.
  - constructor.
  - destruct (negb (String.eqb y "")); trivial.
    constructor; trivial.
    rewrite truthy_plates_In. tauto.
Qed.

Lemma truthy_plates_all_falsy (l : list (option string)) :
  Forall (fun p => truthy p = false) l -> truthy_plates l = [].
Proof.
  induction 1 as [|[y|] l Hy Hl IH]; simpl; trivial.
  simpl in Hy. rewrite Hy. exact IH.
Qed.

(** The plates [GET /platenumber] reads: every distinct value of the
    column, ascending. *)
Lemma fetched_plates_In (p : option string) (db : Session) :
  In p (Sql.order_by (Sql.asc String.leb)
                     (Sql.distinct (map Models.plate_number (rows db))))
  <-> exists r, In r (rows db) /\ Models.plate_number r = p.
Proof.
  rewrite order_by_In, distinct_In, in_map_iff.
  split; intros [r H]; exists r; tauto.
Qed.

(** ** The order of the plates returned *)

Lemma ascii_compare_cases (a b : ascii) :
  match Ascii.compare a b with
  | Eq => a = b
  | Lt => (N_of_ascii a < N_of_ascii b)%N
  | Gt => (N_of_ascii b < N_of_ascii a)%N
  end.
Proof.
  destruct (Ascii.compare a b) eqn:E.
  - now apply Ascii.compare_eq_iff.
  - unfold Ascii.compare in E. now apply N.compare_lt_iff.
  - unfold Ascii.compare in E. now apply N.compare_gt_iff.
Qed.

Lemma string_leb_trans (a b c : string) :
  String.leb a b = true -> String.leb b c = true -> String.leb a c = true.
Proof.
  unfold String.leb. revert b c.
  induction a as [|x a IH]; intros [|y b] [|z c]; simpl; trivial;
    try discriminate.
  pose proof (ascii_compare_cases x y) as Hxy.
  pose proof (ascii_compare_cases y z) as Hyz.
  pose proof (ascii_compare_cases x z) as Hxz.
  destruct (Ascii.compare x y), (Ascii.compare y z), (Ascii.compare x z);
    subst; trivial; try discriminate; try lia;
    try (intros _ H; exact H); try (intros H _; exact H).
  apply IH.
Qed.

Lemma asc_leb_total (a b : option string) :
  Sql.asc String.leb a b = true \/ Sql.asc String.leb b a = true.
Proof.
  destruct a as [x|], b as [y|]; simpl; auto. apply String.leb_total.
Qed.

Lemma asc_leb_trans (a b c : option string) :
  Sql.asc String.leb a b = true -> Sql.asc String.leb b c = true ->
  Sql.asc String.leb a c = true.
Proof.
  destruct a as [x|], b as [y|], c as [z|]; simpl; trivial;
    try discriminate.
  apply string_leb_trans.
Qed.

Lemma truthy_plates_sorted (l : list (option string)) :
  StronglySorted (Sql.le_of (Sql.asc String.leb)) l ->
  StronglySorted (Sql.le_of String.leb) (truthy_plates l).
Proof.
  induction 1 as [|[y|] l Hs IH Hall]; simpl; trivial.
  - constructor.
  - destruct (negb (String.eqb y "")); trivial.
    constructor; trivial.
    apply Forall_forall. intros z Hz.
    apply truthy_plates_In in Hz as [_ Hz].
    rewrite Forall_forall in Hall. exact (Hall _ Hz).
Qed.

(** Whenever the handler returns, the plates come ascending. *)
Lemma plates_returned_sorted (db db' : Session) (resp : plates_response) :
  get_unique_plate_numbers db = (Ok resp, db') ->
  StronglySorted (Sql.le_of String.leb) (plates resp).
Proof.
  unfold get_unique_plate_numbers.
  set (fetched := Sql.order_by _ _).
  assert (Hs : StronglySorted (Sql.le_of String.leb) (truthy_plates fetched)).
  { apply truthy_plates_sorted, Sorted_StronglySorted.
    - intros a b c. apply asc_leb_trans.
    - apply order_by_sorted, asc_leb_total. }
  destruct (truthy_plates fetched) as [|p ps]; [discriminate|].
  intro H. inversion H; subst. exact Hs.
Qed.

(** The handler never answers 404: the one it raises is replaced. *)
Lemma plates_never_404 (db : Session) (detail : string) :
  fst (get_unique_plate_numbers db) <> HTTPException 404 detail.
Proof.
  unfold get_unique_plate_numbers.
  destruct (truthy_plates _); simpl; discriminate.
Qed.

(** C2: the code does not do what the claim says on a store without
    plates.  The handler raises the 404 inside its own [try] block, whose
    [except Exception] catches it and raises a 500 in its place. *)
Theorem plates_of_empty_store_is_500 :
  forall n : Z,
    get_unique_plate_numbers (get_db {| table := []; next_id := n |})
    = (HTTPException 500
         "Error retrieving plate numbers: 404: No plate numbers found",
       get_db {| table := []; next_id := n |}).
Proof. intros. reflexivity. Qed.

(** C10: the distinct-plates operation drops every falsy plate, the empty
    string as well as null.  A store all of whose records carry such a
    plate is reported as having no plate numbers; and whenever a list is
    returned, the empty string is not in it, [count] is the length of the
    list, no plate is listed twice, and the plates listed are exactly the
    non-empty plate values of the store. *)
Theorem plates_exclude_falsy :
  (forall db : Session,
      Forall (fun r => Models.plate_number r = Some ""
                       \/ Models.plate_number r = None) (rows db) ->
      get_unique_plate_numbers db
      = (HTTPException 500
           "Error retrieving plate numbers: 404: No plate numbers found",
         db))
  /\ (forall (db db' : Session) (resp : plates_response),
         get_unique_plate_numbers db = (Ok resp, db') ->
         ~ In "" (plates resp)
         /\ count resp = List.length (plates resp)
         /\ NoDup (plates resp)
         /\ (forall p, In p (plates resp)
                       <-> p <> ""
                           /\ exists r, In r (rows db)
                                        /\ Models.plate_number r = Some p)).
Proof.
  split.
  - intros db Hall. unfold get_unique_plate_numbers.
    rewrite truthy_plates_all_falsy; [reflexivity|].
    apply Forall_forall. intros p Hp.
    apply fetched_plates_In in Hp as [r [Hr Hp]].
    rewrite Forall_forall in Hall.
    destruct (Hall r Hr) as [H|H]; rewrite H in Hp; subst; reflexivity.
  - intros db db' resp. unfold get_unique_plate_numbers.
    set (fetched := Sql.order_by _ _).
    assert (Hin : forall p, In p (truthy_plates fetched)
                            <-> p <> ""
                                /\ exists r, In r (rows db)
                                             /\ Models.plate_number r = Some p).
    { intro p. rewrite truthy_plates_In. unfold fetched.
      rewrite fetched_plates_In. tauto. }
    assert (Hnd : NoDup (truthy_plates fetched)).
    { apply truthy_plates_NoDup. unfold fetched.
      eapply Permutation_NoDup; [apply order_by_perm|apply distinct_NoDup]. }
    destruct (truthy_plates fetched) as [|p0 ps] eqn:E; [discriminate|].
    intro H. inversion H; subst; clear H. simpl count; simpl plates.
    split; [|split; [reflexivity|split; [exact Hnd|exact Hin]]].
    intro H0. apply Hin in H0. destruct H0 as [H0 _]. now apply H0.
Qed.

Lemma plates_exclude_falsy_witness :
  let blank := get_db {| table := [ Examples.row 1 "" (ymd 2025 6 5) 100 None ];
                         next_id := 2 |} in
  Forall (fun r => Models.plate_number r = Some ""
                   \/ Models.plate_number r = None) (rows blank)
  /\ get_unique_plate_numbers blank
     = (HTTPException 500
          "Error retrieving plate numbers: 404: No plate numbers found",
        blank).
Proof.
  intro blank.
  assert (H : Forall (fun r => Models.plate_number r = Some ""
                               \/ Models.plate_number r = None) (rows blank))
    by (repeat constructor).
  split; [exact H|].
  exact (proj1 plates_exclude_falsy blank H).
Defined.

(* ================================================================== *)
(** * The compiled filter *)
(* ================================================================== *)

Lemma filter_true (A : Type) (l : list A) : filter (fun _ => true) l = l.
Proof.
  induction l as [|x l IH]; simpl; [reflexivity|now rewrite IH].
Qed.

(** Whatever the criteria, the predicates the handlers assemble select
    the rows that satisfy the criteria. *)
Lemma compiled_filters (payload : DrivingDistanceFilter)
      (query : list DrivingDistance) :
  (let filters := [] in
   let filters :=
     match plate_number payload with
     | Some ((_ :: _) as plates) => (filters ++ [in_ plates])%list
     | _ => filters
     end in
   let filters :=
     match start_at payload, end_at payload with
     | Some s, Some e => (filters ++ [and_ (date_ge s) (date_le e)])%list
     | Some s, None => (filters ++ [date_ge s])%list
     | None, Some e => (filters ++ [date_le e])%list
     | None, None => filters
     end in
   match filters with
   | [] => query
   | _ :: _ => filter_ filters query
   end)
  = matching payload query.
Proof.
  destruct payload as [[[|p ps]|] [s|] [e|] l]; cbv zeta; simpl;
    unfold matching, filter_, satisfies; simpl;
    try (symmetry; apply filter_true);
    apply filter_ext; intro r;
    unfold in_, and_, date_ge, date_le;
    destruct (Models.plate_number r), (Models.date r); simpl;
    rewrite ?andb_true_r, ?andb_false_r; reflexivity.
Qed.

Lemma filter_driving_distance_steps (payload : DrivingDistanceFilter)
      (db : Session) :
  filter_driving_distance payload db
  = fetch_and_localize (limit payload) (matching payload (rows db)) db.
Proof.
  unfold filter_driving_distance.
  rewrite <- (compiled_filters payload (rows db)). reflexivity.
Qed.

Lemma get_driving_distance_records_steps (plates : option (list string))
      (s e : option Datetime.date) (l : Z) (db : Session) :
  get_driving_distance_records plates s e l db
  = fetch_and_localize
      l
      (matching {| plate_number := plates; start_at := s; end_at := e;
                   limit := l |} (rows db))
      db.
Proof.
  unfold get_driving_distance_records.
  rewrite <- (compiled_filters
                {| plate_number := plates; start_at := s; end_at := e;
                   limit := l |} (rows db)).
  reflexivity.
Qed.

Lemma summarize_distance_steps (payload : DrivingDistanceFilter)
      (db : Session) :
  summarize_distance payload db
  = let results :=
      Sql.order_by plate_asc
                   (group_by_plate_number (matching payload (rows db))) in
    match results with
    | [] => (HTTPException 404 "No records found for summary", db)
    | _ :: _ =>
        (Ok {| period := (start_at payload, end_at payload);
               summary :=
                 map (fun r =>
                        {| summary_plate_number := fst r;
                           total_distance := float_or_0 (snd r);
                           summary_start_at := start_at payload;
                           summary_end_at := end_at payload |})
                     results |}, db)
    end.
Proof.
  unfold summarize_distance.
  rewrite <- (compiled_filters payload (rows db)). reflexivity.
Qed.

Lemma satisfies_iff (payload : DrivingDistanceFilter) (r : DrivingDistance) :
  satisfies payload r = true <-> plate_ok payload r /\ date_ok payload r.
Proof.
  unfold satisfies, plate_ok, date_ok. rewrite andb_true_iff.
  assert (Hand : forall A B C D : Prop,
             (A <-> C) -> (B <-> D) -> (A /\ B <-> C /\ D)) by tauto.
  apply Hand; clear Hand.
  - destruct (plate_number payload) as [[|p ps]|]; try tauto.
    destruct (Models.plate_number r) as [q|].
    + rewrite existsb_exists. split.
      * intros [x [Hx E]]. apply String.eqb_eq in E. subst.
        exists x. auto.
      * intros [x [E Hx]]. inversion E; subst.
        exists x. split; [exact Hx|apply String.eqb_refl].
    + split; [discriminate|intros [x [E _]]; discriminate].
  - destruct (start_at payload) as [s|], (end_at payload) as [e|],
             (Models.date r) as [d|];
      rewrite ?andb_true_iff, ?Z.leb_le;
      split; try tauto; try discriminate;
      try (intros [x [E _]]; discriminate);
      try (intros [x [E H]]; inversion E; subst; exact H);
      intro H; exists d; auto.
Qed.

Lemma satisfies_stored_part (payload : DrivingDistanceFilter)
      (r s : DrivingDistance) :
  stored_part r = stored_part s -> satisfies payload r = satisfies payload s.
Proof.
  intro H. unfold satisfies.
  assert (Hp : Models.plate_number r = Models.plate_number s)
    by exact (f_equal Models.plate_number H).
  assert (Hd : Models.date r = Models.date s)
    by exact (f_equal Models.date H).
  rewrite Hp, Hd. reflexivity.
Qed.

Lemma date_asc_total (a b : DrivingDistance) :
  date_asc a b = true \/ date_asc b a = true.
Proof.
  unfold date_asc, Sql.asc.
  destruct (Models.date a) as [x|], (Models.date b) as [y|]; auto.
  rewrite !Z.leb_le. lia.
Qed.

(* ================================================================== *)
(** * The list operation *)
(* ================================================================== *)

Lemma localize_store (r : DrivingDistance) (db : Session) :
  store (snd (localize r db)) = store db.
Proof.
  unfold localize. destruct (Models.created_at r) as [t|]; [|reflexivity].
  unfold bindM, lift, modify, ret.
  destruct (astimezone (replace_tzinfo t utc) utc BKK_TZ); reflexivity.
Qed.

Lemma localize_ok (r r' : DrivingDistance) (db db' : Session) :
  localize r db = (Ok r', db') -> stored_part r' = stored_part r.
Proof.
  unfold localize. destruct (Models.created_at r) as [t|].
  - unfold bindM, lift, modify, ret.
    destruct (astimezone (replace_tzinfo t utc) utc BKK_TZ);
      intro H; inversion H; subst. reflexivity.
  - unfold ret. intro H. inversion H. reflexivity.
Qed.

Lemma forM_localize_ok (xs ys : list DrivingDistance) (db db' : Session) :
  forM xs localize db = (Ok ys, db') ->
  map stored_part ys = map stored_part xs.
Proof.
  revert ys db db'. induction xs as [|x xs IH]; intros ys db db'; simpl.
  - unfold ret. intro H. inversion H. reflexivity.
  - unfold bindM at 1.
    destruct (localize x db) as [[y|c d|e] db1] eqn:E1; try discriminate.
    unfold bindM.
    destruct (forM xs localize db1) as [[zs|c d|e] db2] eqn:E2;
      try discriminate.
    unfold ret. intro H. inversion H; subst. simpl.
    rewrite (localize_ok E1), (IH _ _ _ E2). reflexivity.
Qed.

Lemma fetch_and_localize_store (l : Z) (query : list DrivingDistance)
      (db : Session) :
  store (snd (fetch_and_localize l query db)) = store db.
Proof.
  unfold fetch_and_localize, bindM, lift, Sql.limit.
  destruct (l <? 0); [reflexivity|].
  destruct (firstn (Z.to_nat l) (Sql.order_by date_asc query)) as [|r rs];
    [reflexivity|].
  apply (@forM_invariant _ _ _ (fun s => store s = store db));
    [|reflexivity].
  intros x s Hs. now rewrite localize_store.
Qed.

Lemma fetch_and_localize_ok (l : Z) (query records : list DrivingDistance)
      (db db' : Session) :
  fetch_and_localize l query db = (Ok records, db') ->
  0 <= l
  /\ map stored_part records
     = map stored_part (firstn (Z.to_nat l) (Sql.order_by date_asc query)).
Proof.
  unfold fetch_and_localize, bindM, lift, Sql.limit.
  destruct (l <? 0) eqn:El; [discriminate|].
  apply Z.ltb_ge in El.
  destruct (firstn (Z.to_nat l) (Sql.order_by date_asc query)) as [|r rs];
    [discriminate|].
  intro H. split; [exact El|]. exact (forM_localize_ok H).
Qed.

Lemma localize_in_range (r : DrivingDistance) (db : Session) :
  (forall t, Models.created_at r = Some t ->
             in_range (wall t) = true
             /\ in_range (wall t + hours 7) = true) ->
  exists r' db', localize r db = (Ok r', db') /\ store db' = store db.
Proof.
  intro Hok. unfold localize.
  destruct (Models.created_at r) as [t|]; [|eexists; eexists; split; reflexivity].
  destruct (Hok t eq_refl) as [H1 H2].
  unfold bindM, lift, modify, ret, BKK_TZ.
  rewrite (@astimezone_in_range (replace_tzinfo t utc) utc (hours 7));
    simpl; unfold utc; rewrite ?Z.sub_0_r; trivial.
  eexists; eexists; split; reflexivity.
Qed.

Lemma forM_localize_in_range (xs : list DrivingDistance) :
  forall db : Session,
    Forall (fun r => forall t, Models.created_at r = Some t ->
                               in_range (wall t) = true
                               /\ in_range (wall t + hours 7) = true) xs ->
    exists ys db', forM xs localize db = (Ok ys, db').
Proof.
  induction xs as [|x xs IH]; intros db Hall; simpl.
  - eexists; eexists; reflexivity.
  - inversion Hall as [|? ? Hx Hxs]; subst.
    destruct (localize_in_range db Hx) as [x' [db1 [E1 _]]].
    destruct (IH db1 Hxs) as [ys [db2 E2]].
    unfold bindM. rewrite E1, E2. eexists; eexists; reflexivity.
Qed.

(** The list operation does return: a limit the store accepts, at least
    one matching row among the first [limit], and timestamps whose UTC+7
    reading exists are enough. *)
Lemma filter_driving_distance_returns (payload : DrivingDistanceFilter)
      (db : Session) :
  0 <= limit payload < 2 ^ 63 ->
  let fetched := firstn (Z.to_nat (limit payload))
                        (Sql.order_by date_asc (matching payload (rows db))) in
  fetched <> [] ->
  Forall (fun r => forall t, Models.created_at r = Some t ->
                             in_range (wall t) = true
                             /\ in_range (wall t + hours 7) = true) fetched ->
  exists records db',
    filter_driving_distance payload db = (Ok records, db').
Proof.
  intros Hl fetched Hne Hall.
  rewrite filter_driving_distance_steps.
  unfold fetch_and_localize, bindM, lift, Sql.limit.
  destruct (limit payload <? 0) eqn:E; [apply Z.ltb_lt in E; lia|].
  fold fetched. destruct fetched as [|r rs] eqn:Ef; [contradiction|].
  apply forM_localize_in_range. exact Hall.
Qed.

Lemma date_asc_iff (a b : DrivingDistance) :
  date_asc a b = true <-> date_before a b.
Proof.
  unfold date_asc, Sql.asc, date_before.
  destruct (Models.date a) as [x|], (Models.date b) as [y|];
    rewrite ?Z.leb_le; split; intro H; trivial;
    try discriminate; try contradiction.
Qed.

Lemma date_before_trans (a b c : DrivingDistance) :
  date_before a b -> date_before b c -> date_before a c.
Proof.
  unfold date_before.
  destruct (Models.date a), (Models.date b), (Models.date c);
    trivial; try contradiction. lia.
Qed.

Lemma date_before_same_dates (a a' b b' : DrivingDistance) :
  Models.date a = Models.date a' -> Models.date b = Models.date b' ->
  date_before a b -> date_before a' b'.
Proof. unfold date_before. intros Ha Hb. now rewrite Ha, Hb. Qed.

Lemma Sorted_date_asc_before (l : list DrivingDistance) :
  Sorted (Sql.le_of date_asc) l -> StronglySorted date_before l.
Proof.
  intro Hs. apply Sorted_StronglySorted.
  - intros a b c. apply date_before_trans.
  - induction Hs as [|x l Hs IH Hhd]; constructor; trivial.
    destruct Hhd as [|y l Hxy]; constructor. now apply date_asc_iff.
Qed.

Lemma order_by_date_before (query : list DrivingDistance) :
  StronglySorted date_before (Sql.order_by date_asc query).
Proof.
  apply Sorted_date_asc_before, order_by_sorted, date_asc_total.
Qed.

Lemma StronglySorted_app_inv (A : Type) (R : A -> A -> Prop)
      (l1 l2 : list A) :
  StronglySorted R (l1 ++ l2)%list ->
  StronglySorted R l1
  /\ forall x y, In x l1 -> In y l2 -> R x y.
Proof.
  induction l1 as [|a l1 IH]; simpl; intro Hs.
  - split; [constructor|intros x y []].
  - inversion Hs as [|? ? Hs' Hall]; subst.
    destruct (IH Hs') as [H1 H2]. split.
    + constructor; trivial.
      apply Forall_forall. intros x Hx.
      rewrite Forall_forall in Hall. apply Hall, in_or_app. now left.
    + intros x y [Hx|Hx] Hy.
      * subst. rewrite Forall_forall in Hall.
        apply Hall, in_or_app. now right.
      * now apply H2.
Qed.

Lemma StronglySorted_same_dates (l l' : list DrivingDistance) :
  map Models.date l = map Models.date l' ->
  StronglySorted date_before l -> StronglySorted date_before l'.
Proof.
  intros Hmap Hs. revert l' Hmap.
  induction Hs as [|a l Hs IH Hall]; intros [|a' l'] Hmap;
    try discriminate; [constructor|].
  simpl in Hmap. inversion Hmap as [[Ha Hl]].
  constructor; [now apply IH|].
  apply Forall_forall. intros b' Hb'.
  apply (in_map Models.date) in Hb'. rewrite <- Hl in Hb'.
  apply in_map_iff in Hb' as [b [Hb Hin]].
  rewrite Forall_forall in Hall.
  exact (date_before_same_dates Ha Hb (Hall b Hin)).
Qed.

Lemma stored_part_dates (l l' : list DrivingDistance) :
  map stored_part l = map stored_part l' ->
  map Models.date l = map Models.date l'.
Proof.
  intro H. apply (f_equal (map Models.date)) in H.
  rewrite !map_map in H. exact H.
Qed.

(** C5: whatever the criteria, every record the list operation returns
    satisfies the plate predicate (membership in the given set when that
    set is non-empty, nothing otherwise) and the date predicate (in its
    four cases, bounds inclusive); the records come ascending by date,
    each one before every later one; there are at most [limit] of them;
    and the limit cuts the matching rows from the far end: the matching
    rows are the records returned together with the rows left out, the
    records returned are [limit] in number or all the matching rows if
    these are fewer, and no row left out has an earlier date than a
    record returned.  Which of several rows on one date are returned
    when the limit falls between them is not said. *)
Theorem filter_returns_matching_sorted_truncated
        (payload : DrivingDistanceFilter) (db db' : Session)
        (records : list DrivingDistance)
        (Hreturns : filter_driving_distance payload db = (Ok records, db')) :
  Forall (fun r => plate_ok payload r /\ date_ok payload r) records
  /\ StronglySorted date_before records
  /\ Z.of_nat (List.length records) <= limit payload
  /\ exists rest : list DrivingDistance,
       Permutation (map stored_part (matching payload (rows db)))
                   (map stored_part (records ++ rest))
       /\ List.length records
          = Nat.min (Z.to_nat (limit payload))
                    (List.length (matching payload (rows db)))
       /\ forall r s, In r records -> In s rest -> date_before r s.
Proof.
  rewrite filter_driving_distance_steps in Hreturns.
  apply fetch_and_localize_ok in Hreturns as [Hl Hmap].
  set (sorted := Sql.order_by date_asc (matching payload (rows db))) in *.
  set (n := Z.to_nat (limit payload)) in *.
  pose proof (order_by_date_before (matching payload (rows db))) as Hsorted.
  fold sorted in Hsorted.
  rewrite <- (firstn_skipn n sorted) in Hsorted.
  apply StronglySorted_app_inv in Hsorted as [Hfirst Hcut].
  assert (Hlen : List.length records
                 = Nat.min n (List.length (matching payload (rows db)))).
  { apply (f_equal (@List.length _)) in Hmap.
    rewrite !length_map, length_firstn in Hmap.
    unfold sorted in Hmap. rewrite order_by_length in Hmap. exact Hmap. }
  split; [|split; [|split]].
  - apply Forall_forall. intros r Hr.
    apply (in_map stored_part) in Hr. rewrite Hmap in Hr.
    apply in_map_iff in Hr as [s [Hs Hin]].
    apply satisfies_iff. rewrite (@satisfies_stored_part payload r s); auto.
    apply In_firstn, order_by_In in Hin.
    unfold matching in Hin. now apply filter_In in Hin.
  - apply (@StronglySorted_same_dates (firstn n sorted)); trivial.
    symmetry. now apply stored_part_dates.
  - rewrite Hlen. unfold n. lia.
  - exists (skipn n sorted). split; [|split].
    + rewrite map_app, Hmap, <- map_app, firstn_skipn.
      apply Permutation_map, order_by_perm.
    + exact Hlen.
    + intros r s Hr Hs.
      apply (in_map stored_part) in Hr. rewrite Hmap in Hr.
      apply in_map_iff in Hr as [r0 [Hr0 Hin]].
      apply (@date_before_same_dates r0 r s s); trivial.
      * exact (f_equal Models.date Hr0).
      * now apply Hcut.
Qed.

Lemma filter_returns_matching_sorted_truncated_witness :
  let db := get_db Examples.week_store in
  let records :=
    [ Examples.row 3 "A1" (ymd 2025 6 5) 500
        (Some (replace_tzinfo (naive 2025 6 6 6 0 0) (hours 7)));
      Examples.row 4 "A1" (ymd 2025 6 7) 700 None ] in
  let db' := assign db (hd (Examples.row 0 "" 0 0 None) records) in
  filter_driving_distance Examples.two_of_june db = (Ok records, db')
  /\ Forall (fun r => plate_ok Examples.two_of_june r
                      /\ date_ok Examples.two_of_june r) records
  /\ StronglySorted date_before records
  /\ Z.of_nat (List.length records) <= limit Examples.two_of_june
  /\ exists rest : list DrivingDistance,
       Permutation (map stored_part (matching Examples.two_of_june (rows db)))
                   (map stored_part (records ++ rest))
       /\ List.length records
          = Nat.min (Z.to_nat (limit Examples.two_of_june))
                    (List.length (matching Examples.two_of_june (rows db)))
       /\ forall r s, In r records -> In s rest -> date_before r s.
Proof.
  intros db records db'.
  assert (H : filter_driving_distance Examples.two_of_june db
              = (Ok records, db')) by (vm_compute; reflexivity).
  split; [exact H|].
  exact (filter_returns_matching_sorted_truncated H).
Defined.

(* ================================================================== *)
(** * GET / against POST /filter *)
(* ================================================================== *)

(** C8: for every plate set, start date, end date, limit and session, the
    query-parameter endpoint and the payload endpoint give the same
    result (value or error) and leave the session in the same state. *)
Theorem get_is_filter :
  forall (plates : option (list string)) (s e : option Datetime.date)
         (l : Z) (db : Session),
    get_driving_distance_records plates s e l db
    = filter_driving_distance
        {| plate_number := plates; start_at := s; end_at := e; limit := l |}
        db.
Proof.
  intros.
  rewrite get_driving_distance_records_steps, filter_driving_distance_steps.
  reflexivity.
Qed.

(* ================================================================== *)
(** * Read operations and the store *)
(* ================================================================== *)

(** C9: the list operation (by payload or by query parameters), the
    aggregate and the distinct-plates operation leave the store as it
    was, table and sequence alike, whatever they return or raise, and so
    does closing their session afterwards.  The list endpoints do
    overwrite [created_at] on the instances they return: in the sample
    store the returned record is held by the session as assigned and is
    equal to no stored row. *)
Theorem reads_leave_store_unchanged :
  (forall payload db,
      store (snd (filter_driving_distance payload db)) = store db
      /\ close (snd (filter_driving_distance payload db)) = store db)
  /\ (forall plates s e l db,
         store (snd (get_driving_distance_records plates s e l db)) = store db
         /\ close (snd (get_driving_distance_records plates s e l db))
            = store db)
  /\ (forall payload db,
         store (snd (summarize_distance payload db)) = store db
         /\ close (snd (summarize_distance payload db)) = store db)
  /\ (forall db,
         store (snd (get_unique_plate_numbers db)) = store db
         /\ close (snd (get_unique_plate_numbers db)) = store db)
  /\ (exists records db',
         filter_driving_distance Examples.june_criteria
                                 (get_db Examples.june_store)
         = (Ok records, db')
         /\ records <> []
         /\ dirty db' = records
         /\ Forall (fun r => ~ In r (table Examples.june_store)) records
         /\ store db' = Examples.june_store).
Proof.
  assert (Hfilter : forall payload db,
             store (snd (filter_driving_distance payload db)) = store db).
  { intros. rewrite filter_driving_distance_steps.
    apply fetch_and_localize_store. }
  assert (Hsum : forall payload db,
             store (snd (summarize_distance payload db)) = store db).
  { intros. rewrite summarize_distance_steps. cbv zeta.
    destruct (Sql.order_by plate_asc _); reflexivity. }
  assert (Hplates : forall db,
             store (snd (get_unique_plate_numbers db)) = store db).
  { intros. unfold get_unique_plate_numbers.
    destruct (truthy_plates _); reflexivity. }
  repeat split.
  - apply Hfilter.
  - unfold close. simpl. apply Hfilter.
  - rewrite get_driving_distance_records_steps.
    apply fetch_and_localize_store.
  - unfold close. simpl. rewrite get_driving_distance_records_steps.
    apply fetch_and_localize_store.
  - apply Hsum.
  - unfold close. simpl. apply Hsum.
  - apply Hplates.
  - unfold close. simpl. apply Hplates.
  - eexists. eexists. split; [vm_compute; reflexivity|].
    split; [discriminate|]. split; [reflexivity|].
    split; [|reflexivity].
    constructor; [|constructor].
    intros [H|[H|[H|[]]]]; discriminate.
Qed.

(* ================================================================== *)
(** * The aggregate *)
(* ================================================================== *)
Lemma float_or_0_sum (l : list (option Z)) :
  float_or_0 (Sql.sum l)
  = fold_right Z.add 0 (map (fun x => match x with Some v => v | None => 0 end) l).
Proof.
  assert (Hsome : forall v, float_or_0 (Some v) = v).
  { intro v. unfold float_or_0. destruct (v =? 0) eqn:E; [|reflexivity].
    apply Z.eqb_eq in E. now subst. }
  induction l as [|[v|] l IH]; simpl; trivial.
  destruct (Sql.sum l) as [t|].
  - rewrite Hsome, <- IH, Hsome. reflexivity.
  - rewrite Hsome, <- IH. simpl. lia.
Qed.

Lemma sum_of_plate_perm (p : option string) (l l' : list DrivingDistance) :
  Permutation l l' -> sum_of_plate p l = sum_of_plate p l'.
Proof.
  unfold sum_of_plate.
  induction 1 as [|x l l' Hp IH|x y l|l1 l2 l3 H12 IH12 H23 IH23]; simpl.
  - reflexivity.
  - destruct (Sql.eq_nullable (Models.plate_number x) p); simpl; lia.
  - destruct (Sql.eq_nullable (Models.plate_number x) p),
             (Sql.eq_nullable (Models.plate_number y) p); simpl; lia.
  - lia.
Qed.

Lemma sum_of_plate_stored_part (p : option string) (l : list DrivingDistance) :
  sum_of_plate p (map stored_part l) = sum_of_plate p l.
Proof.
  unfold sum_of_plate. induction l as [|x l IH]; simpl; trivial.
  destruct (Sql.eq_nullable (Models.plate_number x) p); simpl; trivial.
  rewrite IH. reflexivity.
Qed.

(** One row of the grouped query, read back: its plate is a plate of the
    query and its total is the sum over that plate's rows. *)
Lemma grouped_row_total (query : list DrivingDistance) (g : grouped_row) :
  In g (Sql.order_by plate_asc (group_by_plate_number query)) ->
  (exists r, In r query /\ Models.plate_number r = fst g)
  /\ float_or_0 (snd g) = sum_of_plate (fst g) query.
Proof.
  rewrite order_by_In. unfold group_by_plate_number.
  rewrite in_map_iff. intros [k [Hg Hk]]. subst g. simpl.
  apply distinct_In, in_map_iff in Hk as [r [Hr Hin]].
  split; [exists r; auto|].
  rewrite float_or_0_sum, map_map. reflexivity.
Qed.

Lemma grouped_row_complete (query : list DrivingDistance) (r : DrivingDistance) :
  In r query ->
  exists g, In g (Sql.order_by plate_asc (group_by_plate_number query))
            /\ fst g = Models.plate_number r.
Proof.
  intro Hr. eexists. split.
  - apply order_by_In. unfold group_by_plate_number.
    apply in_map_iff. exists (Models.plate_number r). split; [reflexivity|].
    apply distinct_In, in_map. exact Hr.
  - reflexivity.
Qed.

Lemma grouped_plates_NoDup (query : list DrivingDistance) :
  NoDup (map fst (Sql.order_by plate_asc (group_by_plate_number query))).
Proof.
  eapply Permutation_NoDup.
  - apply Permutation_map, order_by_perm.
  - unfold group_by_plate_number. rewrite map_map. simpl.
    rewrite map_id. apply distinct_NoDup.
Qed.

(** C1, as stated, fails: with two "A1" rows of distances 10.00 and 5.00
    on different dates and a limit of 1, the list operation returns the
    first row alone, whose distance is 10.00, while the aggregate reports
    15.00 for "A1". *)
Lemma aggregate_is_not_sum_of_listed :
  let db :=
    get_db {| table := [ Examples.row 1 "A1" (ymd 2025 6 5) 1000 None;
                         Examples.row 2 "A1" (ymd 2025 6 20) 500 None ];
              next_id := 3 |} in
  exists records resp,
    filter_driving_distance Examples.first_only db = (Ok records, db)
    /\ summarize_distance Examples.first_only db = (Ok resp, db)
    /\ exists row,
         In row (summary resp)
         /\ total_distance row = 1500
         /\ sum_of_plate (summary_plate_number row) records = 1000
         /\ total_distance row
            <> sum_of_plate (summary_plate_number row) records.
Proof.
  intro db. eexists. eexists.
  split; [vm_compute; reflexivity|].
  split; [vm_compute; reflexivity|].
  eexists. split; [left; reflexivity|].
  split; [reflexivity|]. split; [reflexivity|].
  vm_compute. discriminate.
Qed.

(** C1, amended: for every filter criteria, the aggregate lists each
    plate of the rows matching the plate and date predicates exactly
    once, with the arithmetic sum of [distance] (null as zero) over all
    those rows of that plate; the limit plays no part.  The sums are
    those of the records the list operation returns whenever the limit is
    at least the number of matching rows. *)
Theorem aggregate_sums_all_matching
        (payload : DrivingDistanceFilter) (db db' : Session)
        (resp : summary_response)
        (Hreturns : summarize_distance payload db = (Ok resp, db')) :
  (forall row, In row (summary resp) ->
               total_distance row
               = sum_of_plate (summary_plate_number row)
                              (matching payload (rows db)))
  /\ (forall p, (exists row, In row (summary resp)
                             /\ summary_plate_number row = p)
                <-> (exists r, In r (matching payload (rows db))
                               /\ Models.plate_number r = p))
  /\ NoDup (map summary_plate_number (summary resp))
  /\ (forall records db'',
         filter_driving_distance payload db = (Ok records, db'') ->
         Z.of_nat (List.length (matching payload (rows db))) <= limit payload ->
         forall row, In row (summary resp) ->
                     total_distance row
                     = sum_of_plate (summary_plate_number row) records).
Proof.
  rewrite summarize_distance_steps in Hreturns. cbv zeta in Hreturns.
  set (query := matching payload (rows db)) in *.
  set (results := Sql.order_by plate_asc (group_by_plate_number query)) in *.
  assert (Hresp : summary resp
                  = map (fun r =>
                           {| summary_plate_number := fst r;
                              total_distance := float_or_0 (snd r);
                              summary_start_at := start_at payload;
                              summary_end_at := end_at payload |}) results).
  { destruct results; [discriminate|]. inversion Hreturns. reflexivity. }
  clear Hreturns.
  assert (Hall : forall row, In row (summary resp) ->
                             total_distance row
                             = sum_of_plate (summary_plate_number row) query).
  { intros row Hrow. rewrite Hresp in Hrow.
    apply in_map_iff in Hrow as [g [Hg Hin]]. subst row. simpl.
    apply (grouped_row_total Hin). }
  split; [exact Hall|]. split; [|split].
  - intro p. rewrite Hresp. split.
    + intros [row [Hrow Hp]].
      apply in_map_iff in Hrow as [g [Hg Hin]]. subst row. simpl in Hp.
      subst p. apply (grouped_row_total Hin).
    + intros [r [Hr Hp]].
      destruct (grouped_row_complete Hr) as [g [Hg Hfst]].
      eexists. split; [apply in_map, Hg|]. simpl. congruence.
  - rewrite Hresp, map_map. simpl. apply grouped_plates_NoDup.
  - intros records db'' Hlist Hlimit row Hrow.
    rewrite (Hall row Hrow).
    rewrite filter_driving_distance_steps in Hlist.
    apply fetch_and_localize_ok in Hlist as [Hl Hmap].
    fold query in Hmap.
    rewrite firstn_all2 in Hmap by (rewrite order_by_length; lia).
    rewrite <- (sum_of_plate_stored_part _ records), Hmap,
            sum_of_plate_stored_part.
    apply sum_of_plate_perm, order_by_perm.
Qed.

Lemma aggregate_sums_all_matching_witness :
  let db := get_db Examples.june_store in
  let resp :=
    {| period := (Some (ymd 2025 6 1), Some (ymd 2025 6 15));
       summary := [ {| summary_plate_number := Some "A1";
                       total_distance := 1000;
                       summary_start_at := Some (ymd 2025 6 1);
                       summary_end_at := Some (ymd 2025 6 15) |} ] |} in
  summarize_distance Examples.june_criteria db = (Ok resp, db)
  /\ forall row, In row (summary resp) ->
                 total_distance row
                 = sum_of_plate (summary_plate_number row)
                                (matching Examples.june_criteria (rows db)).
Proof.
  intros db resp.
  assert (H : summarize_distance Examples.june_criteria db = (Ok resp, db))
    by (vm_compute; reflexivity).
  split; [exact H|].
  exact (proj1 (aggregate_sums_all_matching H)).
Defined.

(* ================================================================== *)
(** * Chunking *)
(* ================================================================== *)

Section Chunking.
Variable size : nat.
Hypothesis size_pos : (0 < size)%nat.

Lemma chunk_count_0 : chunk_count 0 size = 0%nat.
Proof.
  unfold chunk_count. apply Nat.div_small. lia.
Qed.

Lemma chunk_count_step (n : nat) :
  (0 < n)%nat -> chunk_count n size = S (chunk_count (n - size) size).
Proof.
  intro Hn. unfold chunk_count.
  destruct (Nat.le_gt_cases size n) as [Hle|Hgt].
  - replace (n + size - 1)%nat with ((n - size + size - 1) + 1 * size)%nat
      by lia.
    rewrite Nat.div_add by lia. lia.
  - replace (n + size - 1)%nat with ((n - 1) + 1 * size)%nat by lia.
    rewrite Nat.div_add by lia.
    rewrite (Nat.div_small (n - 1)) by lia.
    replace (n - size)%nat with 0%nat by lia.
    fold (chunk_count 0 size). rewrite chunk_count_0. reflexivity.
Qed.

Lemma chunk_count_covers (n : nat) : (n <= chunk_count n size * size)%nat.
Proof.
  unfold chunk_count.
  pose proof (Nat.mul_succ_div_gt (n + size - 1) size) as H.
  assert (Hs : size <> 0%nat) by lia. specialize (H Hs).
  rewrite (Nat.mul_comm _ size). lia.
Qed.

Lemma chunk_count_tight (n j : nat) :
  (j < chunk_count n size)%nat -> (j * size < n)%nat.
Proof.
  unfold chunk_count. intro Hj.
  pose proof (Nat.Div0.mul_div_le (n + size - 1) size) as H.
  assert (S j * size <= (n + size - 1) / size * size)%nat
    by (apply Nat.mul_le_mono_r; lia).
  rewrite (Nat.mul_comm size) in H. simpl in *. lia.
Qed.

Lemma range_from_chunks (fuel start stop : nat) :
  (stop - start <= fuel)%nat ->
  range_from fuel start stop size
  = map (fun j => start + j * size)%nat
        (seq 0 (chunk_count (stop - start) size)).
Proof.
  revert start. induction fuel as [|fuel IH]; intros start Hfuel; simpl.
  - replace (stop - start)%nat with 0%nat by lia.
    rewrite chunk_count_0. reflexivity.
  - destruct (start <? stop)%nat eqn:E.
    + apply Nat.ltb_lt in E.
      rewrite chunk_count_step by lia. simpl.
      rewrite Nat.add_0_r. f_equal.
      rewrite IH by lia.
      replace (stop - (start + size))%nat with (stop - start - size)%nat
        by lia.
      rewrite <- seq_shift, map_map.
      apply map_ext. intro j. simpl. lia.
    + apply Nat.ltb_ge in E.
      replace (stop - start)%nat with 0%nat by lia.
      rewrite chunk_count_0. reflexivity.
Qed.

Lemma range_chunks (total : nat) :
  range 0 total size
  = map (fun j => j * size)%nat (seq 0 (chunk_count total size)).
Proof.
  unfold range. rewrite range_from_chunks by lia.
  rewrite Nat.sub_0_r. reflexivity.
Qed.

Variable A : Type.

Lemma firstn_plus (a b : nat) (l : list A) :
  (firstn a l ++ firstn b (skipn a l))%list = firstn (a + b) l.
Proof.
  revert l. induction a as [|a IH]; intro l; simpl; trivial.
  destruct l as [|x l]; simpl.
  - now rewrite firstn_nil.
  - now rewrite IH.
Qed.

Lemma slice_chunk (l : list A) (start : nat) :
  slice l start (Nat.min (start + size) (List.length l))
  = firstn size (skipn start l).
Proof.
  unfold slice.
  destruct (Nat.le_gt_cases (start + size) (List.length l)) as [H|H].
  - rewrite Nat.min_l by lia. f_equal. lia.
  - rewrite Nat.min_r by lia.
    rewrite !firstn_all2; trivial; rewrite length_skipn; lia.
Qed.

(** The first [m] chunks, laid end to end, are the first [m * size]
    elements. *)
Lemma chunks_concat (l : list A) (m : nat) :
  List.concat (map (fun start =>
                      slice l start (Nat.min (start + size) (List.length l)))
              (map (fun j => j * size)%nat (seq 0 m)))
  = firstn (m * size) l.
Proof.
  induction m as [|m IH].
  - reflexivity.
  - rewrite seq_S, !map_app, concat_app, IH. simpl.
    rewrite app_nil_r, slice_chunk, firstn_plus.
    f_equal. lia.
Qed.
End Chunking.

(* ================================================================== *)
(** * Reading back the rows just inserted *)
(* ================================================================== *)

Lemma insert_by_app_skip (A : Type) (leb : A -> A -> bool) (x : A)
      (l1 l2 : list A) :
  Forall (fun y => leb x y = false) l1 ->
  Sql.insert_by leb x (l1 ++ l2) = (l1 ++ Sql.insert_by leb x l2)%list.
Proof.
  induction 1 as [|y l1 Hy Hl1 IH]; simpl; trivial.
  rewrite Hy, IH. reflexivity.
Qed.

Lemma insert_rows_length (now : datetime) (next : Z)
      (cs : list DrivingDistanceCreate) :
  List.length (insert_rows now next cs) = List.length cs.
Proof.
  revert next. induction cs as [|c cs IH]; intro next; simpl; trivial.
  now rewrite IH.
Qed.

Lemma insert_rows_ids (now : datetime) (next : Z)
      (cs : list DrivingDistanceCreate) :
  map Models.id (insert_rows now next cs) = consecutive next (List.length cs).
Proof.
  unfold consecutive.
  revert next. induction cs as [|c cs IH]; intro next; simpl; trivial.
  f_equal; [lia|].
  rewrite IH, <- seq_shift, map_map.
  apply map_ext. intro i. lia.
Qed.

Lemma consecutive_bounds (next : Z) (n : nat) (i : Z) :
  In i (consecutive next n) -> next <= i < next + Z.of_nat n.
Proof.
  unfold consecutive. rewrite in_map_iff.
  intros [j [Hj Hin]]. apply in_seq in Hin. lia.
Qed.

Lemma insert_rows_bounds (now : datetime) (next : Z)
      (cs : list DrivingDistanceCreate) (r : DrivingDistance) :
  In r (insert_rows now next cs) ->
  next <= Models.id r < next + Z.of_nat (List.length cs).
Proof.
  intro H. apply consecutive_bounds. rewrite <- (insert_rows_ids now).
  now apply in_map.
Qed.

Lemma insert_rows_submitted (now : datetime) (next : Z)
      (cs : list DrivingDistanceCreate) :
  Forall2 submitted cs (insert_rows now next cs).
Proof.
  revert next. induction cs as [|c cs IH]; intro next; simpl; constructor.
  - repeat split.
  - apply IH.
Qed.

Lemma order_by_id_desc_insert_rows (now : datetime) (next : Z)
      (cs : list DrivingDistanceCreate) :
  Sql.order_by id_desc (insert_rows now next cs)
  = rev (insert_rows now next cs).
Proof.
  revert next. induction cs as [|c cs IH]; intro next; simpl; trivial.
  rewrite IH.
  rewrite <- (app_nil_r (rev (insert_rows now (next + 1) cs))) at 1.
  rewrite insert_by_app_skip; [reflexivity|].
  apply Forall_forall. intros y Hy.
  apply in_rev, insert_rows_bounds in Hy.
  unfold id_desc. simpl. apply Z.leb_gt. lia.
Qed.

Lemma order_by_id_desc_app (tbl new : list DrivingDistance) :
  (forall t y, In t tbl -> In y new -> Models.id t < Models.id y) ->
  Sql.order_by id_desc (tbl ++ new)
  = (Sql.order_by id_desc new ++ Sql.order_by id_desc tbl)%list.
Proof.
  intro Hlt. induction tbl as [|t tbl IH]; simpl.
  - now rewrite app_nil_r.
  - rewrite IH by (intros; apply Hlt; simpl; auto).
    apply insert_by_app_skip.
    apply Forall_forall. intros y Hy. apply order_by_In in Hy.
    unfold id_desc. apply Z.leb_gt. apply Hlt; simpl; auto.
Qed.

(** On a store whose ids all came from the sequence, the newest rows,
    newest first, are the chunk just written, last record first. *)
Lemma newest_rows (now : datetime) (next : Z) (tbl : list DrivingDistance)
      (batch : list DrivingDistanceCreate) :
  Forall (fun r => Models.id r < next) tbl ->
  Sql.limit (Z.of_nat (List.length batch))
            (Sql.order_by id_desc (tbl ++ insert_rows now next batch))
  = Ok (rev (insert_rows now next batch)).
Proof.
  intro Hwf. unfold Sql.limit.
  destruct (Z.of_nat (List.length batch) <? 0) eqn:E;
    [apply Z.ltb_lt in E; lia|].
  rewrite Nat2Z.id, order_by_id_desc_app, order_by_id_desc_insert_rows.
  - rewrite firstn_app, length_rev, insert_rows_length, Nat.sub_diag.
    rewrite firstn_0, app_nil_r.
    rewrite firstn_all2; [reflexivity|].
    rewrite length_rev, insert_rows_length. lia.
  - intros t y Ht Hy. rewrite Forall_forall in Hwf.
    specialize (Hwf t Ht). apply insert_rows_bounds in Hy. lia.
Qed.

Lemma flushed_nothing (l : list DrivingDistance) : map (flushed []) l = l.
Proof.
  induction l as [|r l IH]; simpl; [reflexivity|now rewrite IH].
Qed.

(* ================================================================== *)
(** * POST /bulk: the chunk loop *)
(* ================================================================== *)

Section BulkLoop.
Variable world : nat -> fate.
Variable payload : list DrivingDistanceCreate.
Variable size : nat.

Variable total : nat.

Lemma save_and_fetch_healthy (now : datetime)
      (batch : list DrivingDistanceCreate) (tbl : list DrivingDistance)
      (next : Z) (log : list log_record) :
  Forall (fun r => Models.id r < next) tbl ->
  save_and_fetch (Healthy now) batch (idle tbl next, log)
  = (Ok (rev (insert_rows now next batch)),
     (idle (tbl ++ insert_rows now next batch)
           (next + Z.of_nat (List.length batch)), log)).
Proof.
  intro Hwf.
  unfold save_and_fetch, bindM, on_session, modify, idle, commit,
    bulk_save_objects, rows; simpl.
  rewrite flushed_nothing, app_nil_r, newest_rows by exact Hwf.
  reflexivity.
Qed.

Lemma chunk_rows_length_bound (starts : list nat) (k : nat) (next : Z)
      (r : DrivingDistance) :
  In r (chunk_rows world payload total size starts k next) ->
  next <= Models.id r
  < next + Z.of_nat (List.length
                       (chunk_rows world payload total size starts k next)).
Proof.
  revert k next. induction starts as [|start starts IH]; intros k next;
    simpl; [tauto|].
  rewrite length_app, insert_rows_length, in_app_iff.
  intros [H|H].
  - apply insert_rows_bounds in H. lia.
  - apply IH in H. lia.
Qed.

(** As long as the store serves every chunk, the loop commits the rows
    of each, keeps them newest first, and logs one line per chunk. *)
Lemma insert_batches_healthy (starts : list nat) :
  forall (k : nat) (tbl : list DrivingDistance) (next : Z)
         (inserted_records : list DrivingDistance) (log : list log_record),
    (forall j, (j < List.length starts)%nat ->
               exists now, world (k + j) = Healthy now) ->
    Forall (fun r => Models.id r < next) tbl ->
    let new := chunk_rows world payload total size starts k next in
    insert_batches world payload total size starts k inserted_records
                   (idle tbl next, log)
    = (Ok (rev new ++ inserted_records)%list,
       (idle (tbl ++ new) (next + Z.of_nat (List.length new)),
        (log ++ inserting total size starts)%list)).
Proof.
  induction starts as [|start starts IH];
    intros k tbl next inserted_records log Hhealthy Hwf; simpl.
  - unfold ret. rewrite !app_nil_r, Z.add_0_r. reflexivity.
  - destruct (Hhealthy 0%nat) as [now Hnow]; [simpl; lia|].
    rewrite Nat.add_0_r in Hnow.
    unfold bindM at 1. unfold info at 1, modify at 1. simpl fst; simpl snd.
    unfold bindM at 1. rewrite Hnow.
    rewrite save_and_fetch_healthy by exact Hwf.
    simpl now_of.
    set (batch := slice payload start (Nat.min (start + size) total)).
    rewrite IH.
    + rewrite rev_app_distr, length_app, insert_rows_length.
      rewrite <- !app_assoc, Nat2Z.inj_add, Z.add_assoc. reflexivity.
    + intros j Hj. destruct (Hhealthy (S j)) as [now' Hnow'];
        [simpl; lia|].
      exists now'. rewrite <- Hnow'. f_equal. lia.
    + apply Forall_app. split.
      * eapply Forall_impl; [|exact Hwf]. simpl. intros; lia.
      * apply Forall_forall. intros r Hr.
        apply insert_rows_bounds in Hr. lia.
Qed.
Lemma insert_batches_app (pre post : list nat) :
  forall (k : nat) (inserted_records : list DrivingDistance)
         (st : bulk_state),
    insert_batches world payload total size (pre ++ post) k inserted_records st
    = match insert_batches world payload total size pre k inserted_records st
      with
      | (Ok inserted_records', st') =>
          insert_batches world payload total size post
                         (k + List.length pre) inserted_records' st'
      | (HTTPException c d, st') => (HTTPException c d, st')
      | (Raise e, st') => (Raise e, st')
      end.
Proof.
  induction pre as [|start pre IH]; intros k inserted_records st; simpl.
  - unfold ret. rewrite Nat.add_0_r. reflexivity.
  - unfold bindM, info, modify. simpl fst; simpl snd.
    destruct (save_and_fetch (world k) _ _) as [[last_batch|c d|e] st2];
      trivial.
    rewrite IH, Nat.add_succ_r. reflexivity.
Qed.

(** A chunk whose write or commit fails: the loop stops there, with the
    rows written so far still uncommitted. *)
Lemma insert_batches_fails (start : nat) (starts : list nat) (k : nat)
      (cause : string) (inserted_records : list DrivingDistance)
      (tbl : list DrivingDistance) (next : Z) (log : list log_record) :
  (exists now written, world k = WriteFails now written cause)
  \/ (exists now, world k = CommitFails now cause) ->
  exists uncommitted next',
    insert_batches world payload total size (start :: starts) k
                   inserted_records (idle tbl next, log)
    = (Raise cause,
       ({| store := {| table := tbl; next_id := next' |};
           pending := uncommitted;
           dirty := [] |},
        (log ++ inserting total size [start])%list)).
Proof.
  intros [[now [written Hw]]|[now Hw]]; simpl;
    unfold bindM, info, modify; simpl fst; simpl snd; rewrite Hw;
    unfold save_and_fetch, bindM, on_session, modify, lift, idle,
      bulk_save_objects; simpl;
    eexists; eexists; reflexivity.
Qed.

Lemma seq_from_0 (a b : nat) :
  seq a b = map (fun i => a + i)%nat (seq 0 b).
Proof.
  revert a. induction b as [|b IH]; intro a; simpl.
  - reflexivity.
  - f_equal; [lia|].
    rewrite (IH (S a)), <- seq_shift, map_map.
    apply map_ext. intro i. lia.
Qed.

Lemma consecutive_app (next : Z) (a b : nat) :
  consecutive next (a + b)
  = (consecutive next a ++ consecutive (next + Z.of_nat a) b)%list.
Proof.
  unfold consecutive. rewrite seq_app, map_app. f_equal.
  simpl. rewrite (seq_from_0 a b), map_map.
  apply map_ext. intro i. lia.
Qed.

Lemma chunk_rows_submitted (starts : list nat) :
  forall (k : nat) (next : Z),
    Forall2 submitted
            (List.concat
               (map (fun start =>
                       slice payload start (Nat.min (start + size) total))
                    starts))
            (chunk_rows world payload total size starts k next).
Proof.
  induction starts as [|start starts IH]; intros k next; simpl.
  - constructor.
  - apply Forall2_app; [apply insert_rows_submitted|apply IH].
Qed.

Lemma chunk_rows_ids (starts : list nat) :
  forall (k : nat) (next : Z),
    map Models.id (chunk_rows world payload total size starts k next)
    = consecutive next
        (List.length (chunk_rows world payload total size starts k next)).
Proof.
  induction starts as [|start starts IH]; intros k next; simpl.
  - reflexivity.
  - rewrite map_app, length_app, consecutive_app, insert_rows_ids, IH.
    rewrite !insert_rows_length. reflexivity.
Qed.

Lemma inserting_chunk_lines (m : nat) :
  inserting total size (map (fun j => j * size)%nat (seq 0 m))
  = chunk_lines total size m.
Proof.
  unfold inserting, chunk_lines. rewrite map_map. reflexivity.
Qed.
End BulkLoop.

(* ================================================================== *)
(** * POST /bulk *)
(* ================================================================== *)

(** The rows of the first [m] chunks carry the first [m * size] records
    submitted, in the order submitted, under consecutive ids. *)
Lemma first_chunks_rows (world : nat -> fate)
      (payload : list DrivingDistanceCreate) (size m : nat) (next : Z) :
  (0 < size)%nat ->
  let new := chunk_rows world payload (List.length payload) size
                        (map (fun j => j * size)%nat (seq 0 m)) 0 next in
  Forall2 submitted (firstn (m * size) payload) new
  /\ map Models.id new
     = consecutive next (Nat.min (m * size) (List.length payload)).
Proof.
  intros Hsize new.
  assert (Hsub : Forall2 submitted (firstn (m * size) payload) new).
  { rewrite <- (chunks_concat Hsize). apply chunk_rows_submitted. }
  split; [exact Hsub|].
  unfold new. rewrite chunk_rows_ids. f_equal.
  apply Forall2_length in Hsub. fold new. rewrite <- Hsub.
  apply length_firstn.
Qed.


(** 4500 records make three chunks: 2000, 2000 and 500. *)
Example chunk_lines_4500 :
  chunk_lines 4500 2000 (chunk_count 4500 2000)
  = [Inserting 1 2000; Inserting 2001 4000; Inserting 4001 4500].
Proof. vm_compute. reflexivity. Qed.


Lemma chunk_lines_S (n size m : nat) :
  chunk_lines n size (S m)
  = (chunk_lines n size m ++ inserting n size [m * size]%nat)%list.
Proof.
  unfold chunk_lines, inserting. rewrite seq_S, map_app. reflexivity.
Qed.

(** C4: when the write or the commit of chunk [k] fails, every earlier
    chunk having been served, bulk ingestion answers HTTP 500 with the
    cause in its message; the failing chunk's transaction is rolled back
    (nothing of it is in the table and nothing is left pending); no later
    chunk is begun; and the rows of the [k] chunks committed before stay
    in the table, carrying the first [k * 2000] records submitted. *)
Theorem bulk_failure_keeps_prior_chunks
        (world : nat -> fate) (payload : list DrivingDistanceCreate)
        (s : Store) (log : list log_record) (k : nat) (cause : string)
        (Hwf : store_wf s)
        (Hchunk : (k < chunk_count (List.length payload) 2000)%nat)
        (Hprior : forall j, (j < k)%nat -> exists now, world j = Healthy now)
        (Hfails : (exists now written, world k = WriteFails now written cause)
                  \/ (exists now, world k = CommitFails now cause)) :
  let N := List.length payload in
  exists persisted next',
    create_large_bulk_records world payload (get_db s, log)
    = (HTTPException 500 ("Database insert failed: " ++ cause),
       (get_db {| table := table s ++ persisted; next_id := next' |},
        (log ++ [Starting N]
             ++ chunk_lines N 2000 (S k)
             ++ [Failed cause])%list))
    /\ Forall2 submitted (firstn (k * 2000) payload) persisted
    /\ List.length persisted = (k * 2000)%nat
    /\ map Models.id persisted = consecutive (next_id s) (k * 2000).
Proof.
  intro N.
  assert (Hsize : (0 < 2000)%nat) by apply Nat.lt_0_succ.
  pose proof (chunk_count_tight Hsize Hchunk) as Htight. fold N in Htight.
  set (pre := map (fun j => j * 2000)%nat (seq 0 k)).
  set (persisted := chunk_rows world payload N 2000 pre 0 (next_id s)).
  destruct (first_chunks_rows world payload k (next_id s) Hsize)
    as [Hsub Hids].
  fold N in Hsub, Hids. fold pre in Hsub, Hids. fold persisted in Hsub, Hids.
  rewrite Nat.min_l in Hids by lia.
  assert (Hlen : List.length persisted = (k * 2000)%nat).
  { rewrite <- (Forall2_length Hsub), length_firstn. fold N. lia. }
  assert (Hstarts : range 0 N 2000
                    = (pre ++ (k * 2000)%nat
                           :: map (fun j => j * 2000)%nat
                                  (seq (S k) (chunk_count N 2000 - S k)))%list).
  { rewrite (range_chunks Hsize N).
    replace (chunk_count N 2000)
      with (k + S (chunk_count N 2000 - S k))%nat at 1
      by (fold N in Hchunk; lia).
    rewrite seq_app, map_app. reflexivity. }
  destruct s as [tbl next]. simpl table in *; simpl next_id in *.
  destruct (@insert_batches_fails world payload 2000 N (k * 2000)%nat
              (map (fun j => j * 2000)%nat
                   (seq (S k) (chunk_count N 2000 - S k)))
              k cause (rev persisted ++ [])%list
              (tbl ++ persisted)%list
              (next + Z.of_nat (List.length persisted))
              ((log ++ [Starting N]) ++ inserting N 2000 pre)%list Hfails)
    as [uncommitted [next' Hloop]].
  exists persisted, next'.
  split; [|split; [exact Hsub|split; [exact Hlen|exact Hids]]].
  unfold create_large_bulk_records. fold N.
  destruct (N =? 0)%nat eqn:E; [apply Nat.eqb_eq in E; lia|].
  unfold bindM at 1. unfold info at 1, modify at 1.
  cbv beta iota zeta. simpl fst; simpl snd.
  rewrite Hstarts. unfold bindM at 1.
  rewrite insert_batches_app.
  change (get_db {| table := tbl; next_id := next |}) with (idle tbl next).
  rewrite (@insert_batches_healthy world payload 2000 N pre 0 tbl next
             [] (log ++ [Starting N])%list).
  - fold persisted.
    replace (0 + List.length pre)%nat with k
      by (unfold pre; rewrite length_map, length_seq; reflexivity).
    rewrite Hloop.
    unfold bindM, on_session, info, modify, lift, rollback, get_db.
    simpl fst; simpl snd. simpl store.
    rewrite chunk_lines_S. unfold pre. rewrite inserting_chunk_lines.
    rewrite <- !app_assoc. reflexivity.
  - intros j Hj. apply Hprior.
    unfold pre in Hj. now rewrite length_map, length_seq in Hj.
  - exact Hwf.
Qed.

Lemma bulk_failure_keeps_prior_chunks_witness :
  let payload := Examples.candidates 4500 in
  let s := Examples.june_store in
  let world := Examples.commit_fails_at 2 in
  exists persisted next',
    create_large_bulk_records world payload (get_db s, [])
    = (HTTPException 500 "Database insert failed: connection reset",
       (get_db {| table := table s ++ persisted; next_id := next' |},
        ([] ++ [Starting (List.length payload)]
            ++ chunk_lines (List.length payload) 2000 3
            ++ [Failed "connection reset"])%list))
    /\ Forall2 submitted (firstn (2 * 2000) payload) persisted
    /\ List.length persisted = (2 * 2000)%nat
    /\ map Models.id persisted = consecutive (next_id s) (2 * 2000).
Proof.
  intros payload s world.
  apply (@bulk_failure_keeps_prior_chunks world payload s [] 2%nat
           "connection reset").
  - unfold store_wf, s. simpl. repeat constructor.
  - vm_compute. repeat constructor.
  - intros j Hj. exists Examples.noon.
    destruct j as [|[|j]]; [reflexivity|reflexivity|lia].
  - right. exists Examples.noon. reflexivity.
Defined.

(* ================================================================== *)
(** * The token check *)
(* ================================================================== *)

(** X1: the token check lets a request through exactly when the server
    has a non-empty token and the header equals it.  A server without a
    token, or with an empty one, answers 500 whatever the header, an empty
    header included; in every other case the answer is 401. *)
Theorem verify_token_grants_exactly :
  forall (API_TOKEN : option string) (x_token : string),
    (Auth.verify_token API_TOKEN x_token = Ok tt
     <-> exists t, API_TOKEN = Some t /\ t <> "" /\ x_token = t)
    /\ (Auth.verify_token API_TOKEN x_token
        = HTTPException 500 "Server misconfigured: API_TOKEN not set in .env"
        <-> API_TOKEN = None \/ API_TOKEN = Some "")
    /\ (Auth.verify_token API_TOKEN x_token
        = HTTPException 401 "Invalid or missing API token"
        <-> exists t, API_TOKEN = Some t /\ t <> "" /\ x_token <> t).
Proof.
  intros [t|] x_token; unfold Auth.verify_token; simpl.
  - destruct (String.eqb_spec t "") as [Et|Et]; simpl.
    + subst. repeat split; try discriminate; auto.
      * intros [t [E [Hne _]]]. inversion E. congruence.
      * intros [t [E [Hne _]]]. inversion E. congruence.
    + destruct (String.eqb_spec x_token t) as [Ex|Ex]; simpl.
      * repeat split; try discriminate.
        -- intros _. exists t. auto.
        -- intros [H|H]; [discriminate|inversion H; congruence].
        -- intros [t' [E [_ Hx]]]. inversion E. congruence.
      * repeat split; try discriminate.
        -- intros [t' [E [_ Hx]]]. inversion E. congruence.
        -- intros [H|H]; [discriminate|inversion H; congruence].
        -- intros _. exists t. auto.
  - repeat split; try discriminate; auto.
    + intros [t [E _]]. discriminate.
    + intros [t [E _]]. discriminate.
Qed.

(* ================================================================== *)
(** * Sessions by database key *)
(* ================================================================== *)

Lemma get_db_lookup (factories : list (string * Store)) (db_key : string) :
  Engines.get_db factories db_key
  = match Engines.get factories db_key with
    | Some engine => Ok (Database.get_db engine)
    | None =>
        Raise ("ValueError: Database '" ++ db_key ++ "' is not configured.")
    end.
Proof. reflexivity. Qed.

(** X2: importing [database.py] succeeds exactly when [create_engine]
    accepts every URL that is set and not empty; otherwise the import
    dies of the exception [create_engine] raised, and no key gets a
    session.  After a successful import, [get_db] gives a session exactly
    for the keys "DB_MAIN" and "DB_ANALYTICS" whose variable is set and
    not empty, a fresh one on the engine of that URL; for any other key,
    and for a key whose variable is unset or empty, it raises
    [ValueError] naming the key. *)
Theorem get_db_by_key :
  forall (getenv : string -> option string)
         (create_engine : string -> result Store),
    match Engines.SessionFactories getenv create_engine with
    | Ok factories =>
        (forall key url,
            key = "DB_MAIN" \/ key = "DB_ANALYTICS" ->
            getenv key = Some url -> url <> "" ->
            exists engine, create_engine url = Ok engine)
        /\ forall db_key,
             match Engines.get_db factories db_key with
             | Ok db =>
                 (db_key = "DB_MAIN" \/ db_key = "DB_ANALYTICS")
                 /\ exists url engine,
                      getenv db_key = Some url /\ url <> ""
                      /\ create_engine url = Ok engine
                      /\ db = Database.get_db engine
             | Raise e =>
                 e = "ValueError: Database '" ++ db_key
                     ++ "' is not configured."
                 /\ ((db_key <> "DB_MAIN" /\ db_key <> "DB_ANALYTICS")
                     \/ getenv db_key = None \/ getenv db_key = Some "")
             | HTTPException _ _ => False
             end
    | Raise e =>
        exists key url,
          (key = "DB_MAIN" \/ key = "DB_ANALYTICS")
          /\ getenv key = Some url /\ url <> ""
          /\ create_engine url = Raise e
    | HTTPException c d =>
        exists key url,
          (key = "DB_MAIN" \/ key = "DB_ANALYTICS")
          /\ getenv key = Some url /\ url <> ""
          /\ create_engine url = HTTPException c d
    end.
Proof.
  intros getenv create_engine.
  unfold Engines.SessionFactories, Engines.DB_URLS.
  destruct (getenv "DB_MAIN") as [m|] eqn:Em;
    destruct (getenv "DB_ANALYTICS") as [a|] eqn:Ea;
    cbn [Engines.factories Auth.truthy_env];
    try destruct (String.eqb_spec m "") as [Hm|Hm];
    try destruct (String.eqb_spec a "") as [Ha|Ha];
    cbn [negb Engines.factories Engines.setitem];
    try destruct (create_engine m) as [em|cm dm|xm] eqn:Cm;
    cbn [negb Engines.factories Engines.setitem];
    try change (String.eqb "DB_MAIN" "DB_ANALYTICS") with false;
    cbn [Engines.setitem];
    try destruct (create_engine a) as [ea|ca da|xa] eqn:Ca;
    cbn [negb Engines.factories Engines.setitem];
    try (exists "DB_MAIN", m; split; [now left|];
         split; [assumption|split; assumption]);
    try (exists "DB_ANALYTICS", a; split; [now right|];
         split; [assumption|split; assumption]);
    (split;
     [ intros key url [Hk|Hk] Hurl Hne; subst key;
       rewrite ?Em, ?Ea in Hurl; try discriminate;
       inversion Hurl; subst; try contradiction; eauto
     | intro db_key; rewrite get_db_lookup; cbn [Engines.get];
       try destruct (String.eqb_spec "DB_MAIN" db_key) as [Km|Km];
       try destruct (String.eqb_spec "DB_ANALYTICS" db_key) as [Ka|Ka];
       subst; try discriminate;
       first
         [ split; [auto|];
           eexists; eexists; split; [eassumption|];
           split; [assumption|split; [eassumption|reflexivity]]
         | split; [reflexivity|];
           first [ right; left; assumption
                 | right; right; assumption
                 | left; split; congruence ] ] ]).
Qed.

(* ================================================================== *)
(** * What the start-up report shows of a URL *)
(* ================================================================== *)

Lemma append_assoc (a b c : string) : ((a ++ b) ++ c)%string = (a ++ b ++ c)%string.
Proof.
  induction a as [|x a IH]; simpl; [reflexivity|now rewrite IH].
Qed.

Lemma append_empty_r (a : string) : (a ++ "")%string = a.
Proof.
  induction a as [|x a IH]; simpl; [reflexivity|now rewrite IH].
Qed.

Lemma split_not_nil (sep : ascii) (s : string) : Engines.split sep s <> [].
Proof.
  destruct s as [|c s]; simpl; [discriminate|].
  destruct (Ascii.eqb c sep); [discriminate|].
  destruct (Engines.split sep s); discriminate.
Qed.

(** [sep.join(s.split(sep)) == s]. *)
Lemma join_split (sep : ascii) (s : string) :
  String.concat (String sep EmptyString) (Engines.split sep s) = s.
Proof.
  induction s as [|c s IH]; simpl; [reflexivity|].
  destruct (Ascii.eqb_spec c sep) as [E|E].
  - subst. pose proof (@split_not_nil sep s) as Hne.
    destruct (Engines.split sep s) as [|w ws] eqn:Es; [contradiction|].
    simpl. simpl in IH. rewrite IH. reflexivity.
  - pose proof (@split_not_nil sep s) as Hne.
    destruct (Engines.split sep s) as [|w ws] eqn:Es; [contradiction|].
    destruct ws as [|w' ws]; simpl in *; now rewrite IH.
Qed.

Lemma split_pieces (sep : ascii) (s : string) :
  Forall (fun w => ~ In sep (list_ascii_of_string w)) (Engines.split sep s).
Proof.
  induction s as [|c s IH]; simpl.
  - constructor; [simpl; tauto|constructor].
  - destruct (Ascii.eqb_spec c sep) as [E|E].
    + constructor; [simpl; tauto|exact IH].
    + destruct (Engines.split sep s) as [|w ws]; simpl.
      * constructor; [simpl; intuition congruence|constructor].
      * inversion IH as [|? ? Hw Hws]; subst.
        constructor; [simpl; intuition congruence|exact Hws].
Qed.

Lemma concat_cons (sep y : string) (xs : list string) :
  xs <> [] ->
  String.concat sep (y :: xs) = (y ++ sep ++ String.concat sep xs)%string.
Proof.
  destruct xs; [contradiction|reflexivity].
Qed.

Lemma concat_last (sep : string) (l : list string) (x : string) :
  String.concat sep (l ++ [x])
  = match l with
    | [] => x
    | _ :: _ => (String.concat sep l ++ sep ++ x)%string
    end.
Proof.
  induction l as [|y l IH]; [reflexivity|].
  change ((y :: l) ++ [x])%list with (y :: (l ++ [x]))%list.
  rewrite concat_cons by (destruct l; discriminate).
  rewrite IH. destruct l as [|z l].
  - reflexivity.
  - rewrite (@concat_cons sep y (z :: l)) by discriminate.
    rewrite !append_assoc. reflexivity.
Qed.

(** X3: what the start-up report shows of a database URL is the part
    after its last "@": the shown text holds no "@", and the URL is the
    shown text preceded by nothing or by a prefix ending in "@".  So
    whatever stands before the host (user and password) is not shown. *)
Theorem shown_is_after_last_at :
  forall val : string,
    ~ In "@"%char (list_ascii_of_string (Engines.shown val))
    /\ exists hidden,
         val = (hidden ++ Engines.shown val)%string
         /\ (hidden = "" \/ exists h, hidden = (h ++ "@")%string).
Proof.
  intro val. unfold Engines.shown.
  pose proof (@split_not_nil "@"%char val) as Hne.
  pose proof (split_pieces "@"%char val) as Hpieces.
  pose proof (join_split "@"%char val) as Hjoin.
  destruct (exists_last Hne) as [init [w Hsplit]].
  rewrite Hsplit in *. rewrite last_last.
  split.
  - apply Forall_app in Hpieces as [_ Hw]. now inversion Hw.
  - rewrite concat_last in Hjoin. destruct init as [|y init].
    + exists "". split; [now rewrite Hjoin|now left].
    + exists (String.concat "@" (y :: init) ++ "@")%string.
      split; [|right; eexists; reflexivity].
      rewrite append_assoc. now rewrite Hjoin.
Qed.

(* ================================================================== *)
(** * Time Normalization, once and twice *)
(* ================================================================== *)

Lemma astimezone_ok_inv (dt r : datetime) (off tz : timedelta) :
  astimezone dt off tz = Ok r ->
  r = {| wall := wall dt - off + tz; tzinfo := Some tz |}
  /\ in_range (wall dt - off) = true
  /\ in_range (wall dt - off + tz) = true.
Proof.
  intro H.
  destruct (in_range (wall dt - off) && in_range (wall dt - off + tz)) eqn:E.
  - apply andb_true_iff in E as [E1 E2].
    rewrite (astimezone_in_range E1 E2) in H. inversion H. auto.
  - rewrite (astimezone_out_of_range E) in H. discriminate.
Qed.

Lemma convert_to_bangkok_ok_inv (dt : datetime) (v : Schemas.value) :
  Schemas.convert_to_bangkok (Schemas.VDatetime dt) = Ok v ->
  v = Schemas.VDatetime {| wall := wall dt - assumed_offset dt + hours 7;
                           tzinfo := Some (hours 7) |}
  /\ in_range (wall dt - assumed_offset dt) = true
  /\ in_range (wall dt - assumed_offset dt + hours 7) = true.
Proof.
  unfold Schemas.convert_to_bangkok. fold (assumed_offset dt).
  unfold Schemas.bangkok_tz.
  destruct (astimezone (replace_tzinfo dt (assumed_offset dt))
                       (assumed_offset dt) (hours 7)) as [r|c d|e] eqn:E;
    simpl; try discriminate.
  apply astimezone_ok_inv in E as [Hr [H1 H2]]. simpl in *.
  intro H. inversion H. subst. auto.
Qed.

Lemma convert_to_bangkok_fixes (w : Z) :
  in_range (w - hours 7) = true -> in_range w = true ->
  Schemas.convert_to_bangkok
    (Schemas.VDatetime {| wall := w; tzinfo := Some (hours 7) |})
  = Ok (Schemas.VDatetime {| wall := w; tzinfo := Some (hours 7) |}).
Proof.
  intros H1 H2. unfold Schemas.convert_to_bangkok, Schemas.bangkok_tz. simpl.
  rewrite (@astimezone_in_range
             (replace_tzinfo {| wall := w; tzinfo := Some (hours 7) |}
                             (hours 7)) (hours 7) (hours 7)); simpl.
  - do 3 f_equal. lia.
  - exact H1.
  - replace (w - hours 7 + hours 7) with w by lia. exact H2.
Qed.

(** X4: Time Normalization is idempotent: whatever it returns, it returns
    unchanged when applied again; a timestamp already at UTC+7 is not
    shifted a second time. *)
Theorem convert_to_bangkok_idempotent
        (v v' : Schemas.value)
        (Hfirst : Schemas.convert_to_bangkok v = Ok v') :
  Schemas.convert_to_bangkok v' = Ok v'.
Proof.
  destruct v as [|s|dt].
  - inversion Hfirst. reflexivity.
  - inversion Hfirst. reflexivity.
  - apply convert_to_bangkok_ok_inv in Hfirst as [Hv [H1 H2]]. subst v'.
    apply convert_to_bangkok_fixes; [|exact H2].
    replace (wall dt - assumed_offset dt + hours 7 - hours 7)
      with (wall dt - assumed_offset dt) by lia.
    exact H1.
Qed.

Lemma convert_to_bangkok_idempotent_witness :
  let v := Schemas.VDatetime (naive 2025 6 1 10 0 0) in
  let v' := Schemas.VDatetime
              (replace_tzinfo (naive 2025 6 1 17 0 0) (hours 7)) in
  Schemas.convert_to_bangkok v = Ok v'
  /\ Schemas.convert_to_bangkok v' = Ok v'.
Proof.
  intros v v'.
  assert (H : Schemas.convert_to_bangkok v = Ok v')
    by (vm_compute; reflexivity).
  split; [exact H|exact (convert_to_bangkok_idempotent H)].
Defined.

(* ================================================================== *)
(** * The timestamps the list handlers return *)
(* ================================================================== *)

Lemma localize_localized (r : DrivingDistance) (db : Session) :
  fst (localize r db) = localized r.
Proof.
  unfold localize, localized, route_to_bangkok.
  destruct (Models.created_at r) as [t|]; [|reflexivity].
  unfold bindM, lift, modify, ret, bind.
  destruct (astimezone (replace_tzinfo t utc) utc BKK_TZ); reflexivity.
Qed.

Lemma forM_localize_localized (xs ys : list DrivingDistance)
      (db db' : Session) :
  forM xs localize db = (Ok ys, db') ->
  Forall2 (fun x y => localized x = Ok y) xs ys.
Proof.
  revert ys db db'. induction xs as [|x xs IH]; intros ys db db'; simpl.
  - unfold ret. intro H. inversion H. constructor.
  - unfold bindM at 1.
    pose proof (localize_localized x db) as Hx.
    destruct (localize x db) as [[y|c d|e] db1] eqn:E1; try discriminate.
    unfold bindM.
    destruct (forM xs localize db1) as [[zs|c d|e] db2] eqn:E2;
      try discriminate.
    unfold ret. intro H. inversion H; subst.
    constructor; [symmetry; exact Hx|exact (IH _ _ _ E2)].
Qed.

Lemma forM_localize_not_http (xs : list DrivingDistance) (db : Session)
      (c : Z) (d : string) :
  fst (forM xs localize db) <> HTTPException c d.
Proof.
  revert db. induction xs as [|x xs IH]; intro db; simpl.
  - discriminate.
  - unfold bindM at 1.
    pose proof (localize_localized x db) as Hx.
    destruct (localize x db) as [[y|c' d'|e] db1] eqn:E1; simpl in *.
    + unfold bindM. specialize (IH db1).
      destruct (forM xs localize db1) as [[zs|c' d'|e] db2]; simpl in *;
        try discriminate. exact IH.
    + unfold localized, route_to_bangkok, bind in Hx.
      destruct (Models.created_at x) as [t|]; [|discriminate].
      destruct (astimezone (replace_tzinfo t utc) utc BKK_TZ) as [r|c2 d2|e2]
        eqn:Ea; try discriminate.
      unfold astimezone, add, bind in Ea.
      repeat match type of Ea with
             | context [if ?b then _ else _] => destruct b
             end; discriminate.
    + discriminate.
Qed.

(** The rows the list handlers fetch: the first [limit] matching rows,
    ascending by date. *)
Lemma list_fetches (payload : DrivingDistanceFilter) (db db' : Session)
      (records : list DrivingDistance) :
  filter_driving_distance payload db = (Ok records, db') ->
  0 <= limit payload
  /\ Forall2 (fun s r => localized s = Ok r)
             (firstn (Z.to_nat (limit payload))
                     (Sql.order_by date_asc (matching payload (rows db))))
             records.
Proof.
  rewrite filter_driving_distance_steps.
  unfold fetch_and_localize, bindM, lift, Sql.limit.
  destruct (limit payload <? 0) eqn:El; [discriminate|].
  apply Z.ltb_ge in El.
  destruct (firstn _ _) as [|r rs]; [discriminate|].
  intro H. split; [exact El|exact (forM_localize_localized H)].
Qed.

Lemma localized_created_at (s r : DrivingDistance) :
  localized s = Ok r ->
  stored_part r = stored_part s
  /\ match Models.created_at s with
     | None => Models.created_at r = None
     | Some t =>
         Models.created_at r
         = Some {| wall := wall t + hours 7; tzinfo := Some (hours 7) |}
         /\ in_range (wall t) = true
         /\ in_range (wall t + hours 7) = true
     end.
Proof.
  unfold localized, route_to_bangkok, bind.
  destruct (Models.created_at s) as [t|] eqn:Et.
  - destruct (astimezone (replace_tzinfo t utc) utc BKK_TZ) as [t'|c d|e]
      eqn:Ea; try discriminate.
    apply astimezone_ok_inv in Ea as [Ht' [H1 H2]].
    unfold utc, BKK_TZ in *. simpl in *. rewrite Z.sub_0_r in *.
    intro H. inversion H; subst. simpl. auto.
  - intro H. inversion H; subst. rewrite Et. auto.
Qed.

Lemma Forall2_right_In (A B : Type) (R : A -> B -> Prop) (xs : list A)
      (ys : list B) :
  Forall2 R xs ys -> Forall (fun y => exists x, In x xs /\ R x y) ys.
Proof.
  induction 1 as [|x y xs ys Hxy Hrest IH]; constructor.
  - exists x. simpl. auto.
  - eapply Forall_impl; [|exact IH].
    intros b [a [Ha Hab]]. exists a. simpl. auto.
Qed.

Lemma fetched_In (payload : DrivingDistanceFilter) (db : Session)
      (s : DrivingDistance) :
  In s (firstn (Z.to_nat (limit payload))
               (Sql.order_by date_asc (matching payload (rows db)))) ->
  In s (rows db) /\ satisfies payload s = true.
Proof.
  intro H. apply In_firstn, order_by_In in H.
  unfold matching in H. now apply filter_In in H.
Qed.

(** X5: the list operation reads a stored [created_at] as a wall-clock
    reading at UTC, whatever zone the timestamp carries: the timestamp it
    returns is at offset +07:00 and denotes the instant "stored reading,
    at UTC".  That is the instant the stored timestamp itself denotes
    exactly when it is naive or at offset zero.  A null [created_at] is
    returned null, and nothing else of the record is touched. *)
Theorem list_reads_created_at_as_utc
        (payload : DrivingDistanceFilter) (db db' : Session)
        (records : list DrivingDistance)
        (Hreturns : filter_driving_distance payload db = (Ok records, db')) :
  Forall
    (fun r =>
       exists s,
         In s (rows db)
         /\ stored_part r = stored_part s
         /\ match Models.created_at s with
            | None => Models.created_at r = None
            | Some t =>
                exists t',
                  Models.created_at r = Some t'
                  /\ tzinfo t' = Some (hours 7)
                  /\ instant (wall t') (hours 7) = wall t
                  /\ (instant (wall t') (hours 7)
                      = instant (wall t) (assumed_offset t)
                      <-> assumed_offset t = 0)
            end)
    records.
Proof.
  apply list_fetches in Hreturns as [_ Hrel].
  apply Forall2_right_In in Hrel.
  eapply Forall_impl; [|exact Hrel].
  intros r [s [Hs Hloc]]. exists s.
  apply fetched_In in Hs as [Hs _].
  apply localized_created_at in Hloc as [Hpart Hcreated].
  split; [exact Hs|]. split; [exact Hpart|].
  destruct (Models.created_at s) as [t|]; [|exact Hcreated].
  destruct Hcreated as [Hc _]. eexists. split; [exact Hc|].
  simpl. unfold instant. repeat split; lia.
Qed.

Lemma list_reads_created_at_as_utc_witness :
  let db := get_db Examples.june_store in
  let records :=
    [ Examples.row 3 "A1" (ymd 2025 6 5) 1000
        (Some (replace_tzinfo (naive 2025 6 1 17 0 0) (hours 7))) ] in
  Forall
    (fun r =>
       exists s,
         In s (rows db)
         /\ stored_part r = stored_part s
         /\ match Models.created_at s with
            | None => Models.created_at r = None
            | Some t =>
                exists t',
                  Models.created_at r = Some t'
                  /\ tzinfo t' = Some (hours 7)
                  /\ instant (wall t') (hours 7) = wall t
                  /\ (instant (wall t') (hours 7)
                      = instant (wall t) (assumed_offset t)
                      <-> assumed_offset t = 0)
            end)
    records.
Proof.
  intros db records.
  apply (@list_reads_created_at_as_utc
           Examples.june_criteria db (assign db (hd (Examples.row 0 "" 0 0 None) records))
           records).
  vm_compute. reflexivity.
Defined.

(** X6: the response model's validator leaves every timestamp the list
    operation returns as it is: the record's [created_at], already at
    +07:00, passes through Time Normalization unchanged (no second shift
    and no error). *)
Theorem list_timestamps_pass_validator
        (payload : DrivingDistanceFilter) (db db' : Session)
        (records : list DrivingDistance)
        (Hreturns : filter_driving_distance payload db = (Ok records, db')) :
  Forall (fun r => Schemas.convert_to_bangkok (created_at_value r)
                   = Ok (created_at_value r)) records.
Proof.
  apply list_fetches in Hreturns as [_ Hrel].
  apply Forall2_right_In in Hrel.
  eapply Forall_impl; [|exact Hrel].
  intros r [s [_ Hloc]].
  apply localized_created_at in Hloc as [_ Hcreated].
  unfold created_at_value.
  destruct (Models.created_at s) as [t|].
  - destruct Hcreated as [Hc [H1 H2]]. rewrite Hc.
    apply convert_to_bangkok_fixes; [|exact H2].
    replace (wall t + hours 7 - hours 7) with (wall t) by lia. exact H1.
  - rewrite Hcreated. reflexivity.
Qed.

Lemma list_timestamps_pass_validator_witness :
  let db := get_db Examples.june_store in
  let records :=
    [ Examples.row 3 "A1" (ymd 2025 6 5) 1000
        (Some (replace_tzinfo (naive 2025 6 1 17 0 0) (hours 7))) ] in
  Forall (fun r => Schemas.convert_to_bangkok (created_at_value r)
                   = Ok (created_at_value r)) records.
Proof.
  intros db records.
  apply (@list_timestamps_pass_validator
           Examples.june_criteria db (assign db (hd (Examples.row 0 "" 0 0 None) records))
           records).
  vm_compute. reflexivity.
Defined.

(* ================================================================== *)
(** * When the list operation finds nothing, and when it finds all *)
(* ================================================================== *)

Lemma firstn_nil_iff (A : Type) (n : nat) (l : list A) :
  firstn n l = [] <-> n = 0%nat \/ l = [].
Proof.
  destruct n, l; simpl; split; auto; try discriminate.
  intros [H|H]; discriminate.
Qed.

Lemma order_by_nil_iff (A : Type) (leb : A -> A -> bool) (l : list A) :
  Sql.order_by leb l = [] <-> l = [].
Proof.
  split; [apply order_by_nil|intro H; subst; reflexivity].
Qed.

(** X7: with a limit the store accepts, one that is not negative and
    fits its 64-bit [LIMIT], the list operation answers 404 "No matching
    records found" exactly when the limit is 0 or no row satisfies the
    criteria, and then it leaves its session untouched. *)
Theorem list_not_found_exactly
        (payload : DrivingDistanceFilter) (db : Session)
        (Hlimit : 0 <= limit payload < 2 ^ 63) :
  (fst (filter_driving_distance payload db)
   = HTTPException 404 "No matching records found"
   <-> limit payload = 0 \/ matching payload (rows db) = [])
  /\ (fst (filter_driving_distance payload db)
      = HTTPException 404 "No matching records found"
      -> snd (filter_driving_distance payload db) = db).
Proof.
  rewrite filter_driving_distance_steps.
  unfold fetch_and_localize, bindM, lift, Sql.limit.
  destruct (limit payload <? 0) eqn:El; [apply Z.ltb_lt in El; lia|].
  destruct (firstn _ _) as [|r rs] eqn:Ef.
  - simpl. split; [|reflexivity].
    split; [|reflexivity]. intros _.
    apply firstn_nil_iff in Ef as [Hn|Hq].
    + left. lia.
    + right. now apply order_by_nil_iff in Hq.
  - split.
    + split.
      * intro H. exfalso. exact (forM_localize_not_http H).
      * intros [Hn|Hq]; exfalso.
        -- rewrite Hn in Ef. discriminate.
        -- rewrite Hq in Ef. simpl in Ef. rewrite firstn_nil in Ef.
           discriminate.
    + intro H. exfalso. exact (forM_localize_not_http H).
Qed.

Lemma list_not_found_exactly_witness :
  let payload := {| plate_number := Some ["A1"]; start_at := None;
                    end_at := None; limit := 0 |} in
  let db := get_db Examples.june_store in
  0 <= limit payload < 2 ^ 63
  /\ (fst (filter_driving_distance payload db)
      = HTTPException 404 "No matching records found"
      <-> limit payload = 0 \/ matching payload (rows db) = []).
Proof.
  intros payload db.
  assert (H : 0 <= limit payload < 2 ^ 63) by (simpl; lia).
  split; [exact H|exact (proj1 (@list_not_found_exactly payload db H))].
Defined.

Lemma inverted_range_matches_nothing (payload : DrivingDistanceFilter)
      (s e : Datetime.date) (tbl : list DrivingDistance) :
  start_at payload = Some s -> end_at payload = Some e -> e < s ->
  matching payload tbl = [].
Proof.
  intros Hs He Hlt. unfold matching.
  induction tbl as [|r tbl IH]; simpl; trivial.
  rewrite IH. unfold satisfies. rewrite Hs, He.
  destruct (Models.date r) as [d|]; rewrite ?andb_false_r; trivial.
  destruct (s <=? d) eqn:E1, (d <=? e) eqn:E2;
    rewrite ?andb_false_r; trivial.
  apply Z.leb_le in E1, E2. lia.
Qed.

(** X8: a date range whose end lies before its start selects nothing: the
    aggregate answers 404 whatever the store holds, and so does the list
    operation under any limit the store accepts, one that is not negative
    and fits its 64-bit [LIMIT]. *)
Theorem inverted_range_is_not_found
        (payload : DrivingDistanceFilter) (db : Session)
        (s e : Datetime.date)
        (Hstart : start_at payload = Some s)
        (Hend : end_at payload = Some e)
        (Hinverted : e < s) :
  summarize_distance payload db
  = (HTTPException 404 "No records found for summary", db)
  /\ (0 <= limit payload < 2 ^ 63 ->
      filter_driving_distance payload db
      = (HTTPException 404 "No matching records found", db)).
Proof.
  pose proof (@inverted_range_matches_nothing payload s e (rows db)
                Hstart Hend Hinverted) as Hnone.
  split.
  - rewrite summarize_distance_steps, Hnone. reflexivity.
  - intro Hlimit. rewrite filter_driving_distance_steps, Hnone.
    unfold fetch_and_localize, bindM, lift, Sql.limit.
    destruct (limit payload <? 0) eqn:El; [apply Z.ltb_lt in El; lia|].
    simpl. rewrite firstn_nil. reflexivity.
Qed.

Lemma inverted_range_is_not_found_witness :
  let payload := {| plate_number := None;
                    start_at := Some (ymd 2025 6 15);
                    end_at := Some (ymd 2025 6 1);
                    limit := 500 |} in
  let db := get_db Examples.june_store in
  summarize_distance payload db
  = (HTTPException 404 "No records found for summary", db)
  /\ (0 <= limit payload < 2 ^ 63 ->
      filter_driving_distance payload db
      = (HTTPException 404 "No matching records found", db)).
Proof.
  intros payload db.
  apply (@inverted_range_is_not_found payload db (ymd 2025 6 15)
                                      (ymd 2025 6 1)).
  - reflexivity.
  - reflexivity.
  - vm_compute. reflexivity.
Defined.

Lemma localized_stored_part (s r : DrivingDistance) :
  localized s = Ok r -> stored_part r = stored_part s.
Proof. intro H. now apply localized_created_at in H. Qed.

Lemma Forall2_map_eq (A B C : Type) (R : A -> B -> Prop) (f : A -> C)
      (g : B -> C) (xs : list A) (ys : list B) :
  (forall x y, R x y -> g y = f x) ->
  Forall2 R xs ys -> map g ys = map f xs.
Proof.
  intro Hfg. induction 1 as [|x y xs ys Hxy Hrest IH]; simpl; trivial.
  rewrite (Hfg x y Hxy), IH. reflexivity.
Qed.

(** X9: when the matching rows are no more than the limit, the list
    operation returns every one of them, once each: up to the rewritten
    [created_at], the records returned are a rearrangement of the
    matching rows. *)
Theorem list_returns_all_within_limit
        (payload : DrivingDistanceFilter) (db db' : Session)
        (records : list DrivingDistance)
        (Hreturns : filter_driving_distance payload db = (Ok records, db'))
        (Hfits : Z.of_nat (List.length (matching payload (rows db)))
                 <= limit payload) :
  Permutation (map stored_part (matching payload (rows db)))
              (map stored_part records)
  /\ List.length records = List.length (matching payload (rows db)).
Proof.
  apply list_fetches in Hreturns as [Hl Hrel].
  rewrite firstn_all2 in Hrel by (rewrite order_by_length; lia).
  assert (Hmap : map stored_part records
                 = map stored_part
                       (Sql.order_by date_asc (matching payload (rows db)))).
  { apply (Forall2_map_eq (R := fun s r => localized s = Ok r)); trivial.
    intros x y. apply localized_stored_part. }
  split.
  - rewrite Hmap. apply Permutation_map, order_by_perm.
  - rewrite <- (Forall2_length Hrel). apply order_by_length.
Qed.

Lemma list_returns_all_within_limit_witness :
  let db := get_db Examples.june_store in
  let records :=
    [ Examples.row 3 "A1" (ymd 2025 6 5) 1000
        (Some (replace_tzinfo (naive 2025 6 1 17 0 0) (hours 7))) ] in
  Permutation (map stored_part (matching Examples.june_criteria (rows db)))
              (map stored_part records)
  /\ List.length records
     = List.length (matching Examples.june_criteria (rows db)).
Proof.
  intros db records.
  apply (@list_returns_all_within_limit
           Examples.june_criteria db
           (assign db (hd (Examples.row 0 "" 0 0 None) records)) records).
  - vm_compute. reflexivity.
  - vm_compute. discriminate.
Defined.

Lemma Forall2_firstn (A B : Type) (R : A -> B -> Prop) (n : nat)
      (xs : list A) (ys : list B) :
  Forall2 R xs ys -> Forall2 R (firstn n xs) (firstn n ys).
Proof.
  intro H. revert n. induction H as [|x y xs ys Hxy Hrest IH]; intro n.
  - rewrite !firstn_nil. constructor.
  - destruct n; simpl; constructor; auto.
Qed.

Lemma Forall2_functional (A B : Type) (f : A -> result B) (xs : list A)
      (ys zs : list B) :
  Forall2 (fun x y => f x = Ok y) xs ys ->
  Forall2 (fun x y => f x = Ok y) xs zs ->
  ys = zs.
Proof.
  intro H. revert zs. induction H as [|x y xs ys Hxy Hrest IH]; intros zs Hz.
  - now inversion Hz.
  - inversion Hz as [|? z ? zs' Hxz Hrest']; subst.
    rewrite Hxy in Hxz. inversion Hxz; subst.
    f_equal. now apply IH.
Qed.

Lemma NoDup_map_inj (A B : Type) (f : A -> B) (l : list A) (x y : A) :
  NoDup (map f l) -> In x l -> In y l -> f x = f y -> x = y.
Proof.
  induction l as [|a l IH]; simpl; intros Hnd Hx Hy Hf; [contradiction|].
  inversion Hnd as [|? ? Hnotin Hnd']; subst.
  destruct Hx as [Hx|Hx], Hy as [Hy|Hy]; subst; trivial.
  - exfalso. apply Hnotin. rewrite Hf. now apply in_map.
  - exfalso. apply Hnotin. rewrite <- Hf. now apply in_map.
  - now apply IH.
Qed.

Lemma date_before_antisym (a b : DrivingDistance) :
  date_before a b -> date_before b a -> Models.date a = Models.date b.
Proof.
  unfold date_before.
  destruct (Models.date a) as [x|], (Models.date b) as [y|];
    trivial; try contradiction.
  intros H1 H2. f_equal. lia.
Qed.

(** When no two rows share a date, ascending by date leaves one order
    only: two arrangements of the same rows, both ascending by date, are
    the same list. *)
Lemma date_order_unique (l1 : list DrivingDistance) :
  forall l2 : list DrivingDistance,
    NoDup (map Models.date l1) ->
    Permutation l1 l2 ->
    StronglySorted date_before l1 -> StronglySorted date_before l2 ->
    l1 = l2.
Proof.
  induction l1 as [|x l1 IH]; intros l2 Hnd Hperm Hs1 Hs2.
  - apply Permutation_nil in Hperm. now subst.
  - destruct l2 as [|y l2].
    + apply Permutation_sym, Permutation_nil in Hperm. discriminate.
    + assert (Hxy : x = y).
      { assert (Hx : In x (y :: l2))
          by (eapply Permutation_in; [exact Hperm|now left]).
        assert (Hy : In y (x :: l1))
          by (eapply Permutation_in;
              [apply Permutation_sym; exact Hperm|now left]).
        inversion Hs1 as [|? ? _ Hall1]; subst.
        inversion Hs2 as [|? ? _ Hall2]; subst.
        rewrite Forall_forall in Hall1, Hall2.
        destruct Hx as [Hx|Hx]; [now subst|].
        destruct Hy as [Hy|Hy]; [now subst|].
        apply (@NoDup_map_inj _ _ Models.date (x :: l1)); trivial.
        - now left.
        - now right.
        - apply date_before_antisym; auto. }
      subst y. f_equal.
      inversion Hs1; subst. inversion Hs2; subst.
      inversion Hnd; subst.
      apply IH; trivial.
      eapply Permutation_cons_inv. exact Hperm.
Qed.

(** So the order the query layer fixes is then the order of the store,
    whatever way the store sorts. *)
Lemma order_by_date_is_the_only_one (query sorted : list DrivingDistance) :
  NoDup (map Models.date query) ->
  Permutation query sorted ->
  StronglySorted date_before sorted ->
  sorted = Sql.order_by date_asc query.
Proof.
  intros Hnd Hperm Hs. symmetry. apply date_order_unique.
  - eapply Permutation_NoDup; [|exact Hnd].
    apply Permutation_map, order_by_perm.
  - eapply perm_trans; [|exact Hperm].
    apply Permutation_sym, order_by_perm.
  - apply order_by_date_before.
  - exact Hs.
Qed.

(** X10: when no two matching rows share a date (and at most one has
    none), lowering the limit cuts the answer short and changes nothing
    else: for the same plates and dates, the records returned under a
    smaller limit are the first so many of those returned under a larger
    one.  With rows on one date the store may order them differently from
    one request to the next, and nothing is said. *)
Theorem list_smaller_limit_is_prefix
        (payload : DrivingDistanceFilter) (l : Z) (db db1 db2 : Session)
        (records shorter : list DrivingDistance)
        (Hdistinct : NoDup (map Models.date (matching payload (rows db))))
        (Hlarger : filter_driving_distance payload db = (Ok records, db2))
        (Hsmaller : filter_driving_distance
                      {| plate_number := plate_number payload;
                         start_at := start_at payload;
                         end_at := end_at payload;
                         limit := l |} db
                    = (Ok shorter, db1))
        (Hle : l <= limit payload) :
  shorter = firstn (Z.to_nat l) records.
Proof.
  apply list_fetches in Hlarger as [Hl2 Hrel2].
  apply list_fetches in Hsmaller as [Hl1 Hrel1].
  simpl limit in *.
  change (matching {| plate_number := plate_number payload;
                      start_at := start_at payload;
                      end_at := end_at payload;
                      limit := l |} (rows db))
    with (matching payload (rows db)) in Hrel1.
  apply (Forall2_firstn (Z.to_nat l)) in Hrel2.
  rewrite firstn_firstn, Nat.min_l in Hrel2 by lia.
  exact (Forall2_functional Hrel1 Hrel2).
Qed.

Lemma list_smaller_limit_is_prefix_witness :
  let payload := {| plate_number := None; start_at := None; end_at := None;
                    limit := 3 |} in
  let db := get_db Examples.week_store in
  NoDup (map Models.date (matching payload (rows db)))
  /\ exists records shorter db1 db2,
       filter_driving_distance payload db = (Ok records, db2)
       /\ filter_driving_distance Examples.first_only db = (Ok shorter, db1)
       /\ List.length records = 3%nat
       /\ shorter = firstn (Z.to_nat 1) records.
Proof.
  intros payload db.
  assert (Hdistinct : NoDup (map Models.date (matching payload (rows db)))).
  { vm_compute.
    repeat (constructor; [simpl; intuition discriminate|]). constructor. }
  split; [exact Hdistinct|].
  destruct (filter_driving_distance payload db) as [[records| |] db2] eqn:E2;
    try (vm_compute in E2; discriminate E2).
  destruct (filter_driving_distance Examples.first_only db)
    as [[shorter| |] db1] eqn:E1;
    try (vm_compute in E1; discriminate E1).
  exists records, shorter, db1, db2.
  split; [reflexivity|]. split; [reflexivity|]. split.
  - vm_compute in E2. inversion E2. reflexivity.
  - apply (@list_smaller_limit_is_prefix payload 1 db db1 db2 records shorter
             Hdistinct E2 E1).
    simpl. lia.
Defined.

(* ================================================================== *)
(** * The aggregate: when, in what order, and how much in all *)
(* ================================================================== *)

Lemma distinct_nil_iff (l : list (option string)) :
  Sql.distinct l = [] <-> l = [].
Proof.
  destruct l; simpl; split; auto; discriminate.
Qed.

Lemma grouped_nil_iff (query : list DrivingDistance) :
  Sql.order_by plate_asc (group_by_plate_number query) = [] <-> query = [].
Proof.
  rewrite order_by_nil_iff. unfold group_by_plate_number. split.
  - intro H. apply map_eq_nil in H.
    apply (proj1 (distinct_nil_iff _)) in H.
    now apply map_eq_nil in H.
  - intro H. subst. reflexivity.
Qed.

(** X11: the aggregate answers 404 "No records found for summary"
    exactly when no row satisfies the plate and date predicates, whatever
    the limit says, a limit of 0 or a negative one included; and it
    always hands its session back as it was. *)
Theorem aggregate_not_found_exactly :
  forall (payload : DrivingDistanceFilter) (db : Session),
    (fst (summarize_distance payload db)
     = HTTPException 404 "No records found for summary"
     <-> matching payload (rows db) = [])
    /\ ((exists resp, fst (summarize_distance payload db) = Ok resp)
        <-> matching payload (rows db) <> [])
    /\ snd (summarize_distance payload db) = db.
Proof.
  intros payload db. rewrite summarize_distance_steps. cbv zeta.
  pose proof (grouped_nil_iff (matching payload (rows db))) as Hnil.
  destruct (Sql.order_by plate_asc _) as [|g gs]; simpl.
  - assert (Hq : matching payload (rows db) = []) by now apply Hnil.
    split; [tauto|]. split; [|reflexivity].
    split; [intros [resp H]; discriminate|intro H; contradiction].
  - assert (Hq : matching payload (rows db) <> []).
    { intro H. apply Hnil in H. discriminate. }
    split; [split; [discriminate|intro H; contradiction]|].
    split; [|reflexivity].
    split; [intros _; exact Hq|intros _; eexists; reflexivity].
Qed.

Lemma plate_asc_total (a b : grouped_row) :
  plate_asc a b = true \/ plate_asc b a = true.
Proof. apply asc_leb_total. Qed.

(** X12: the aggregate lists its groups ascending by plate, plates being
    compared bytewise and the group of rows without a plate coming last;
    every row, and the period, carry the requested bounds as they were
    given, open ends included. *)
Theorem aggregate_groups_ascending
        (payload : DrivingDistanceFilter) (db db' : Session)
        (resp : summary_response)
        (Hreturns : summarize_distance payload db = (Ok resp, db')) :
  StronglySorted
    (fun a b => Sql.asc String.leb (summary_plate_number a)
                                   (summary_plate_number b) = true)
    (summary resp)
  /\ period resp = (start_at payload, end_at payload)
  /\ Forall (fun row => summary_start_at row = start_at payload
                        /\ summary_end_at row = end_at payload)
            (summary resp).
Proof.
  rewrite summarize_distance_steps in Hreturns. cbv zeta in Hreturns.
  set (results := Sql.order_by plate_asc _) in Hreturns.
  assert (Hsorted : Sorted (Sql.le_of plate_asc) results)
    by apply order_by_sorted, plate_asc_total.
  destruct results as [|g gs] eqn:Er; [discriminate|].
  rewrite <- Er in *. clear Er.
  inversion Hreturns; subst; clear Hreturns. simpl.
  split; [|split; [reflexivity|]].
  - apply Sorted_StronglySorted.
    + intros a b c. apply asc_leb_trans.
    + apply (proj1 (Sorted_map_iff
                      (fun r : grouped_row =>
                         {| summary_plate_number := fst r;
                            total_distance := float_or_0 (snd r);
                            summary_start_at := start_at payload;
                            summary_end_at := end_at payload |})
                      (fun a b => Sql.asc String.leb
                                    (summary_plate_number a)
                                    (summary_plate_number b) = true)
                      results)).
      exact Hsorted.
  - apply Forall_forall. intros row Hrow.
    apply in_map_iff in Hrow as [g' [Hg _]]. subst row. auto.
Qed.

Lemma aggregate_groups_ascending_witness :
  let payload := {| plate_number := None; start_at := None;
                    end_at := Some (ymd 2025 6 30); limit := 1 |} in
  let db := get_db Examples.june_store in
  exists resp,
    summarize_distance payload db = (Ok resp, db)
    /\ map summary_plate_number (summary resp) = [Some "A1"; Some "B2"]
    /\ StronglySorted
         (fun a b => Sql.asc String.leb (summary_plate_number a)
                                        (summary_plate_number b) = true)
         (summary resp).
Proof.
  intros payload db.
  destruct (summarize_distance payload db) as [[resp| |] db'] eqn:E;
    try (vm_compute in E; discriminate E).
  assert (Hdb : db' = db) by (vm_compute in E; inversion E; reflexivity).
  subst db'. exists resp. split; [reflexivity|]. split.
  - vm_compute in E. inversion E. reflexivity.
  - exact (proj1 (aggregate_groups_ascending E)).
Defined.

Lemma sum_map_perm (A : Type) (f : A -> Z) (l l' : list A) :
  Permutation l l' ->
  fold_right Z.add 0 (map f l) = fold_right Z.add 0 (map f l').
Proof.
  induction 1; simpl; lia.
Qed.

Lemma sum_map_add (A : Type) (f g : A -> Z) (l : list A) :
  fold_right Z.add 0 (map (fun x => f x + g x) l)
  = fold_right Z.add 0 (map f l) + fold_right Z.add 0 (map g l).
Proof.
  induction l as [|x l IH]; simpl; lia.
Qed.

Lemma indicator_sum_absent (p : option string) (v : Z)
      (ks : list (option string)) :
  ~ In p ks ->
  fold_right Z.add 0
             (map (fun k => if Sql.eq_nullable p k then v else 0) ks) = 0.
Proof.
  induction ks as [|k ks IH]; simpl; trivial. intro Hn.
  rewrite IH by tauto.
  destruct (Sql.eq_nullable p k) eqn:E; [|reflexivity].
  apply eq_nullable_true in E. subst. tauto.
Qed.

Lemma indicator_sum (p : option string) (v : Z) (ks : list (option string)) :
  NoDup ks -> In p ks ->
  fold_right Z.add 0
             (map (fun k => if Sql.eq_nullable p k then v else 0) ks) = v.
Proof.
  induction 1 as [|k ks Hnin Hnd IH]; simpl; [tauto|].
  intros [Hk|Hin].
  - subst k. rewrite (proj2 (eq_nullable_true p p) eq_refl).
    rewrite indicator_sum_absent by exact Hnin. lia.
  - rewrite IH by exact Hin.
    destruct (Sql.eq_nullable p k) eqn:E; [|reflexivity].
    apply eq_nullable_true in E. subst. contradiction.
Qed.

Lemma sum_of_plate_cons (k : option string) (r : DrivingDistance)
      (q : list DrivingDistance) :
  sum_of_plate k (r :: q)
  = (if Sql.eq_nullable (Models.plate_number r) k then distance_or_0 r else 0)
    + sum_of_plate k q.
Proof.
  unfold sum_of_plate. simpl.
  destruct (Sql.eq_nullable (Models.plate_number r) k); reflexivity.
Qed.

(** Over keys that are distinct and cover the plates of the rows, the
    per-plate sums add up to the sum over all rows. *)
Lemma sums_of_plates (ks : list (option string)) (q : list DrivingDistance) :
  NoDup ks ->
  (forall r, In r q -> In (Models.plate_number r) ks) ->
  fold_right Z.add 0 (map (fun k => sum_of_plate k q) ks) = total_of q.
Proof.
  intros Hnd. induction q as [|r q IH]; intro Hcover.
  - unfold total_of. simpl. clear Hnd Hcover.
    induction ks as [|k ks IHk]; simpl; trivial.
  - rewrite (map_ext _ (fun k =>
               (if Sql.eq_nullable (Models.plate_number r) k
                then distance_or_0 r else 0) + sum_of_plate k q))
      by (intro k; apply sum_of_plate_cons).
    rewrite sum_map_add, indicator_sum;
      [|exact Hnd|apply Hcover; simpl; auto].
    rewrite IH by (intros; apply Hcover; simpl; auto).
    unfold total_of. simpl. reflexivity.
Qed.

(** X13: nothing is lost or counted twice by the grouping: the plates
    the aggregate lists split the rows satisfying the criteria, so that
    the sums of [distance] (null as zero) of the rows of each listed
    plate, taken exactly, add up to the sum over all those rows.  The
    totals reported are these sums converted to floats one by one; of
    adding the floats nothing is said. *)
Theorem aggregate_totals_add_up
        (payload : DrivingDistanceFilter) (db db' : Session)
        (resp : summary_response)
        (Hreturns : summarize_distance payload db = (Ok resp, db')) :
  fold_right Z.add 0
             (map (fun row =>
                     sum_of_plate (summary_plate_number row)
                                  (matching payload (rows db)))
                  (summary resp))
  = total_of (matching payload (rows db)).
Proof.
  rewrite summarize_distance_steps in Hreturns. cbv zeta in Hreturns.
  set (query := matching payload (rows db)) in *.
  destruct (Sql.order_by plate_asc (group_by_plate_number query))
    as [|g gs] eqn:Er; [discriminate|].
  rewrite <- Er in Hreturns. clear Er g gs.
  inversion Hreturns; subst; clear Hreturns. simpl.
  rewrite map_map. simpl.
  rewrite <- (sum_map_perm (fun g => sum_of_plate (fst g) query)
                           (order_by_perm plate_asc
                                          (group_by_plate_number query))).
  unfold group_by_plate_number. rewrite map_map. simpl.
  apply sums_of_plates; [apply distinct_NoDup|].
  intros r Hr. apply distinct_In, in_map. exact Hr.
Qed.

Lemma aggregate_totals_add_up_witness :
  let payload := {| plate_number := None; start_at := None;
                    end_at := None; limit := 1 |} in
  let db := get_db Examples.june_store in
  exists resp,
    summarize_distance payload db = (Ok resp, db)
    /\ map summary_plate_number (summary resp) = [Some "A1"; Some "B2"]
    /\ sum_of_plate (Some "A1") (matching payload (rows db)) = 1500
    /\ sum_of_plate (Some "B2") (matching payload (rows db)) = 700
    /\ fold_right Z.add 0
                  (map (fun row =>
                          sum_of_plate (summary_plate_number row)
                                       (matching payload (rows db)))
                       (summary resp))
       = 2200.
Proof.
  intros payload db.
  destruct (summarize_distance payload db) as [[resp| |] db'] eqn:E;
    try (vm_compute in E; discriminate E).
  assert (Hdb : db' = db) by (vm_compute in E; inversion E; reflexivity).
  subst db'. exists resp. split; [reflexivity|].
  split; [vm_compute in E; inversion E; reflexivity|].
  split; [vm_compute; reflexivity|].
  split; [vm_compute; reflexivity|].
  rewrite (aggregate_totals_add_up E). vm_compute. reflexivity.
Defined.

(* ================================================================== *)
(** * What the distinct-plates operation answers *)
(* ================================================================== *)

Lemma truthy_plates_nil (l : list (option string)) :
  truthy_plates l = [] -> Forall (fun p => truthy p = false) l.
Proof.
  induction l as [|[y|] l IH]; simpl; intro H.
  - constructor.
  - destruct (String.eqb y "") eqn:E; simpl in H; [|discriminate].
    constructor; [simpl; now rewrite E|now apply IH].
  - constructor; [reflexivity|now apply IH].
Qed.

(** X14: the distinct-plates operation answers with a list exactly when
    some record has a plate that is neither null nor empty; the list is
    then not empty and ascending (plates compared bytewise).  Otherwise
    it answers 500, never 404.  Either way the session is handed back as
    it was. *)
Theorem plates_answer :
  forall db : Session,
    match get_unique_plate_numbers db with
    | (Ok resp, db') =>
        db' = db
        /\ (exists r, In r (rows db) /\ truthy (Models.plate_number r) = true)
        /\ (1 <= count resp)%nat
        /\ StronglySorted (Sql.le_of String.leb) (plates resp)
    | (HTTPException c d, db') =>
        db' = db
        /\ c = 500
        /\ Forall (fun r => truthy (Models.plate_number r) = false) (rows db)
    | (Raise _, _) => False
    end.
Proof.
  intro db.
  destruct (get_unique_plate_numbers db) as [[resp|c d|e] db'] eqn:E.
  - pose proof (plates_returned_sorted E) as Hsorted.
    unfold get_unique_plate_numbers in E.
    set (fetched := Sql.order_by _ _) in E.
    destruct (truthy_plates fetched) as [|p ps] eqn:Et; [discriminate|].
    inversion E; subst; clear E. simpl in *.
    split; [reflexivity|]. split; [|split; [lia|exact Hsorted]].
    assert (Hp : In p (truthy_plates fetched)) by (rewrite Et; simpl; auto).
    apply truthy_plates_In in Hp as [Hne Hin].
    apply fetched_plates_In in Hin as [r [Hr Hplate]].
    exists r. split; [exact Hr|]. rewrite Hplate. simpl.
    destruct (String.eqb_spec p ""); [contradiction|reflexivity].
  - unfold get_unique_plate_numbers in E.
    set (fetched := Sql.order_by _ _) in E.
    destruct (truthy_plates fetched) as [|p ps] eqn:Et; [|discriminate].
    inversion E; subst; clear E.
    split; [reflexivity|]. split; [reflexivity|].
    apply truthy_plates_nil in Et. rewrite Forall_forall in Et.
    apply Forall_forall. intros r Hr. apply Et.
    apply fetched_plates_In. exists r. auto.
  - unfold get_unique_plate_numbers in E.
    destruct (truthy_plates _); discriminate.
Qed.

(* ================================================================== *)
(** * POST /bulk against any store behaviour *)
(* ================================================================== *)

Section BulkAnyWorld.
Variable world : nat -> fate.
Variable payload : list DrivingDistanceCreate.
Variable size : nat.
Variable total : nat.

Lemma save_and_fetch_query_fails (now : datetime) (cause : string)
      (batch : list DrivingDistanceCreate) (tbl : list DrivingDistance)
      (next : Z) (log : list log_record) :
  save_and_fetch (QueryFails now cause) batch (idle tbl next, log)
  = (Raise cause,
     (idle (tbl ++ insert_rows now next batch)
           (next + Z.of_nat (List.length batch)), log)).
Proof.
  unfold save_and_fetch, bindM, on_session, modify, lift, idle, commit,
    bulk_save_objects, rows; simpl.
  rewrite flushed_nothing. reflexivity.
Qed.

(** Whatever the store does, the loop leaves the table extended by the
    rows of the chunks it got committed, in order, and nothing else. *)
Lemma insert_batches_any (starts : list nat) :
  forall (k : nat) (tbl : list DrivingDistance) (next : Z)
         (inserted_records : list DrivingDistance) (log : list log_record),
    Forall (fun r => Models.id r < next) tbl ->
    exists done rest res pend next' log',
      starts = (done ++ rest)%list
      /\ insert_batches world payload total size starts k inserted_records
                        (idle tbl next, log)
         = (res,
            ({| store := {| table := tbl ++ chunk_rows world payload total
                                                       size done k next;
                            next_id := next' |};
                pending := pend;
                dirty := [] |}, log'))
      /\ next + Z.of_nat (List.length
                            (chunk_rows world payload total size done k next))
         <= next'
      /\ (forall records,
             res = Ok records ->
             rest = [] /\ pend = []
             /\ records
                = (rev (chunk_rows world payload total size done k next)
                   ++ inserted_records)%list).
Proof.
  induction starts as [|start starts IH];
    intros k tbl next inserted_records log Hwf.
  - exists [], [], (Ok inserted_records), [], next, log. simpl.
    rewrite app_nil_r. unfold ret, idle.
    split; [reflexivity|]. split; [reflexivity|]. split; [lia|].
    intros records H. inversion H. auto.
  - set (batch := slice payload start (Nat.min (start + size) total)).
    destruct (world k) as [now|now written cause|now cause|now cause] eqn:Ew.
    + destruct (IH (S k) (tbl ++ insert_rows now next batch)%list
                   (next + Z.of_nat (List.length batch))
                   (rev (insert_rows now next batch) ++ inserted_records)%list
                   (log ++ [Inserting (start + 1)
                                      (Nat.min (start + size) total)])%list)
        as [done [rest [res [pend [next' [log' [Hs [Hrun [Hnext Hok]]]]]]]]].
      { apply Forall_app. split.
        - eapply Forall_impl; [|exact Hwf]. simpl. intros; lia.
        - apply Forall_forall. intros r Hr.
          apply insert_rows_bounds in Hr. lia. }
      exists (start :: done), rest, res, pend, next', log'.
      cbn [chunk_rows insert_batches]. fold batch. rewrite Ew. simpl now_of.
      split; [simpl; now rewrite Hs|]. split; [|split].
      * unfold bindM at 1. unfold info at 1, modify at 1.
        simpl fst; simpl snd. unfold bindM at 1.
        rewrite save_and_fetch_healthy by exact Hwf.
        rewrite Hrun. rewrite <- app_assoc. reflexivity.
      * rewrite length_app, insert_rows_length. lia.
      * intros records Hres. destruct (Hok records Hres) as [H1 [H2 H3]].
        split; [exact H1|]. split; [exact H2|].
        rewrite H3, rev_app_distr, <- app_assoc. reflexivity.
    + exists [], (start :: starts), (Raise cause),
        (insert_rows now next (firstn written batch)),
        (next + Z.of_nat (List.length (firstn written batch))),
        (log ++ [Inserting (start + 1) (Nat.min (start + size) total)])%list.
      cbn [chunk_rows insert_batches]. fold batch. rewrite Ew.
      rewrite app_nil_r.
      split; [reflexivity|]. split; [|split].
      * unfold bindM, info, modify, save_and_fetch, on_session, lift, idle,
          bulk_save_objects. simpl. reflexivity.
      * simpl. lia.
      * intros records H. discriminate.
    + exists [], (start :: starts), (Raise cause),
        (insert_rows now next batch),
        (next + Z.of_nat (List.length batch)),
        (log ++ [Inserting (start + 1) (Nat.min (start + size) total)])%list.
      cbn [chunk_rows insert_batches]. fold batch. rewrite Ew.
      rewrite app_nil_r.
      split; [reflexivity|]. split; [|split].
      * unfold bindM, info, modify, save_and_fetch, on_session, lift, idle,
          bulk_save_objects. simpl. reflexivity.
      * simpl. lia.
      * intros records H. discriminate.
    + exists [start], starts, (Raise cause), [],
        (next + Z.of_nat (List.length batch)),
        (log ++ [Inserting (start + 1) (Nat.min (start + size) total)])%list.
      cbn [chunk_rows insert_batches]. fold batch. rewrite Ew. simpl now_of.
      rewrite app_nil_r.
      split; [reflexivity|]. split; [|split].
      * unfold bindM at 1. unfold info at 1, modify at 1.
        simpl fst; simpl snd. unfold bindM at 1.
        rewrite save_and_fetch_query_fails. reflexivity.
      * rewrite insert_rows_length. lia.
      * intros records H. discriminate.
Qed.
End BulkAnyWorld.

Lemma firstn_exact (A : Type) (l1 l2 : list A) :
  firstn (List.length l1) (l1 ++ l2) = l1.
Proof.
  rewrite <- (Nat.add_0_r (List.length l1)).
  rewrite firstn_app_2, firstn_0, app_nil_r. reflexivity.
Qed.

Lemma prefix_of_map_seq (B : Type) (f : nat -> B) (n : nat)
      (done rest : list B) :
  (done ++ rest)%list = map f (seq 0 n) ->
  done = map f (seq 0 (List.length done)) /\ (List.length done <= n)%nat.
Proof.
  intro H.
  assert (Hlen : (List.length done + List.length rest = n)%nat).
  { apply (f_equal (@List.length _)) in H.
    now rewrite length_app, length_map, length_seq in H. }
  split; [|lia].
  assert (Hd : done = firstn (List.length done) (map f (seq 0 n)))
    by (rewrite <- H; symmetry; apply firstn_exact).
  etransitivity; [exact Hd|]. rewrite firstn_map. f_equal.
  set (m := List.length done) in *.
  replace n with (m + (n - m))%nat by lia.
  rewrite seq_app.
  pose proof (firstn_exact (seq 0 m) (seq (0 + m) (n - m))) as Hx.
  rewrite length_seq in Hx. exact Hx.
Qed.

(** The outcome of bulk ingestion under any behaviour of the store. *)
Lemma bulk_outcome (world : nat -> fate)
      (payload : list DrivingDistanceCreate) (s : Store)
      (log : list log_record) :
  store_wf s ->
  exists m res next' log',
    create_large_bulk_records world payload (get_db s, log)
    = (res,
       (get_db {| table :=
                    table s
                    ++ chunk_rows world payload (List.length payload) 2000
                                  (map (fun j => j * 2000)%nat (seq 0 m))
                                  0 (next_id s);
                  next_id := next' |}, log'))
    /\ (m <= chunk_count (List.length payload) 2000)%nat
    /\ next_id s
       + Z.of_nat (List.length
                     (chunk_rows world payload (List.length payload) 2000
                                 (map (fun j => j * 2000)%nat (seq 0 m))
                                 0 (next_id s)))
       <= next'
    /\ (forall records,
           res = Ok records ->
           m = chunk_count (List.length payload) 2000
           /\ records
              = chunk_rows world payload (List.length payload) 2000
                           (map (fun j => j * 2000)%nat (seq 0 m))
                           0 (next_id s)).
Proof.
  intro Hwf. set (N := List.length payload).
  assert (Hsize : (0 < 2000)%nat) by apply Nat.lt_0_succ.
  destruct s as [tbl next]. simpl table in *; simpl next_id in *.
  unfold create_large_bulk_records. fold N.
  destruct (N =? 0)%nat eqn:E.
  - exists 0%nat, (HTTPException 400 "No records provided."), next, log.
    simpl. rewrite app_nil_r. unfold lift.
    split; [reflexivity|]. split; [lia|]. split; [lia|].
    intros records H. discriminate.
  - destruct (@insert_batches_any world payload 2000 N (range 0 N 2000) 0
                tbl next [] (log ++ [Starting N])%list Hwf)
      as [done [rest [res [pend [next' [log' [Hs [Hrun [Hnext Hok]]]]]]]]].
    rewrite (range_chunks Hsize N) in Hs. symmetry in Hs.
    destruct (prefix_of_map_seq Hs) as [Hdone Hm].
    set (m := List.length done) in *.
    rewrite Hdone in Hrun, Hnext, Hok.
    unfold bindM at 1. unfold info at 1, modify at 1.
    cbv beta iota zeta. simpl fst; simpl snd.
    change (get_db {| table := tbl; next_id := next |}) with (idle tbl next).
    unfold bindM at 1. rewrite Hrun.
    destruct res as [inserted|c d|e].
    + destruct (Hok inserted eq_refl) as [Hrest [Hpend Hins]].
      exists m, (Ok (rev inserted)), next', (log' ++ [Completed N])%list.
      subst pend. unfold bindM, info, modify, ret, get_db.
      simpl fst; simpl snd.
      split; [reflexivity|]. split; [exact Hm|]. split; [exact Hnext|].
      intros records H. inversion H; subst records.
      split.
      * subst rest. rewrite app_nil_r in Hs.
        apply (f_equal (@List.length _)) in Hs.
        rewrite !length_map, !length_seq in Hs. fold m in Hs. lia.
      * rewrite Hins, app_nil_r, rev_involutive. reflexivity.
    + exists m,
        (HTTPException 500 ("Database insert failed: "
                            ++ str_HTTPException c d)),
        next', (log' ++ [Failed (str_HTTPException c d)])%list.
      unfold bindM, on_session, info, modify, lift, rollback, get_db.
      simpl fst; simpl snd. simpl store.
      split; [reflexivity|]. split; [exact Hm|]. split; [exact Hnext|].
      intros records H. discriminate.
    + exists m, (HTTPException 500 ("Database insert failed: " ++ e)),
        next', (log' ++ [Failed e])%list.
      unfold bindM, on_session, info, modify, lift, rollback, get_db.
      simpl fst; simpl snd. simpl store.
      split; [reflexivity|]. split; [exact Hm|]. split; [exact Hnext|].
      intros records H. discriminate.
Qed.

Lemma consecutive_S (next : Z) (n : nat) :
  consecutive next (S n) = next :: consecutive (next + 1) n.
Proof.
  unfold consecutive. simpl. f_equal; [lia|].
  rewrite <- seq_shift, map_map. apply map_ext. intro i. lia.
Qed.

Lemma consecutive_NoDup (next : Z) (n : nat) : NoDup (consecutive next n).
Proof.
  revert next. induction n as [|n IH]; intro next.
  - constructor.
  - rewrite consecutive_S. constructor; [|apply IH].
    intro H. apply consecutive_bounds in H. lia.
Qed.

(** X15: whatever the store does to each chunk, bulk ingestion leaves
    the table equal to the old table followed by the rows of a whole
    number of leading chunks.  No existing row is changed or removed, no
    chunk is persisted in part or out of turn, the new rows carry
    consecutive ids, every id stays below the sequence and unique, and
    nothing is left pending in the session.  When the answer is a list of
    records, it is the rows added, one for every record submitted, in
    order. *)
Theorem bulk_leaves_whole_leading_chunks
        (world : nat -> fate) (payload : list DrivingDistanceCreate)
        (s : Store) (log : list log_record)
        (Hwf : store_wf s)
        (Hunique : unique_ids (table s)) :
  exists m res added next' log',
    create_large_bulk_records world payload (get_db s, log)
    = (res, (get_db {| table := table s ++ added; next_id := next' |}, log'))
    /\ (m <= chunk_count (List.length payload) 2000)%nat
    /\ Forall2 submitted (firstn (m * 2000) payload) added
    /\ map Models.id added = consecutive (next_id s) (List.length added)
    /\ store_wf {| table := table s ++ added; next_id := next' |}
    /\ unique_ids (table s ++ added)
    /\ (forall records,
           res = Ok records ->
           records = added /\ Forall2 submitted payload added).
Proof.
  assert (Hsize : (0 < 2000)%nat) by apply Nat.lt_0_succ.
  destruct (bulk_outcome world payload log Hwf)
    as [m [res [next' [log' [Hrun [Hm [Hnext Hok]]]]]]].
  set (added := chunk_rows world payload (List.length payload) 2000
                           (map (fun j => j * 2000)%nat (seq 0 m))
                           0 (next_id s)) in *.
  destruct (first_chunks_rows world payload m (next_id s) Hsize)
    as [Hsub _]. fold added in Hsub.
  pose proof (chunk_rows_ids world payload 2000 (List.length payload)
                             (map (fun j => j * 2000)%nat (seq 0 m))
                             0 (next_id s)) as Hids.
  fold added in Hids.
  exists m, res, added, next', log'.
  split; [exact Hrun|]. split; [exact Hm|]. split; [exact Hsub|].
  split; [exact Hids|]. split; [|split].
  - unfold store_wf. simpl. apply Forall_app. split.
    + eapply Forall_impl; [|exact Hwf]. simpl. intros; lia.
    + apply Forall_forall. intros r Hr.
      apply (in_map Models.id) in Hr. rewrite Hids in Hr.
      apply consecutive_bounds in Hr. lia.
  - unfold unique_ids. rewrite map_app. apply NoDup_app.
    + exact Hunique.
    + rewrite Hids. apply consecutive_NoDup.
    + intros i Hold Hnew. rewrite Hids in Hnew.
      apply consecutive_bounds in Hnew.
      apply in_map_iff in Hold as [r [Hr Hin]].
      unfold store_wf in Hwf. rewrite Forall_forall in Hwf.
      specialize (Hwf r Hin). lia.
  - intros records Hres. destruct (Hok records Hres) as [Hall Hrec].
    split; [exact Hrec|].
    rewrite Hall in Hsub.
    rewrite firstn_all2 in Hsub by apply (chunk_count_covers Hsize).
    exact Hsub.
Qed.

Lemma bulk_leaves_whole_leading_chunks_witness :
  let payload := Examples.candidates 4500 in
  let s := Examples.june_store in
  store_wf s
  /\ unique_ids (table s)
  /\ exists m res added next' log',
       create_large_bulk_records (Examples.commit_fails_at 1) payload
                                 (get_db s, [])
       = (res, (get_db {| table := table s ++ added; next_id := next' |},
                log'))
       /\ (m <= chunk_count (List.length payload) 2000)%nat
       /\ Forall2 submitted (firstn (m * 2000) payload) added
       /\ map Models.id added = consecutive (next_id s) (List.length added)
       /\ store_wf {| table := table s ++ added; next_id := next' |}
       /\ unique_ids (table s ++ added)
       /\ (forall records,
              res = Ok records ->
              records = added /\ Forall2 submitted payload added).
Proof.
  intros payload s.
  assert (Hwf : store_wf s) by (unfold store_wf, s; simpl; repeat constructor).
  assert (Huniq : unique_ids (table s)).
  { unfold unique_ids, s. simpl.
    repeat constructor; simpl; intuition discriminate. }
  split; [exact Hwf|]. split; [exact Huniq|].
  exact (@bulk_leaves_whole_leading_chunks (Examples.commit_fails_at 1)
           payload s [] Hwf Huniq).
Defined.

Lemma chunk_rows_app (world : nat -> fate)
      (payload : list DrivingDistanceCreate) (total size : nat)
      (a b : list nat) :
  forall (k : nat) (next : Z),
    chunk_rows world payload total size (a ++ b) k next
    = (chunk_rows world payload total size a k next
       ++ chunk_rows world payload total size b (k + List.length a)
            (next + Z.of_nat (List.length
                                (chunk_rows world payload total size a k next))))%list.
Proof.
  induction a as [|start a IH]; intros k next; simpl.
  - rewrite Nat.add_0_r, Z.add_0_r. reflexivity.
  - rewrite IH, <- app_assoc, length_app, insert_rows_length.
    rewrite Nat2Z.inj_add, Z.add_assoc, Nat.add_succ_r. reflexivity.
Qed.

Lemma insert_batches_query_fails (world : nat -> fate)
      (payload : list DrivingDistanceCreate) (total size : nat)
      (start : nat) (starts : list nat) (k : nat) (now : datetime)
      (cause : string) (inserted_records tbl : list DrivingDistance)
      (next : Z) (log : list log_record) :
  world k = QueryFails now cause ->
  insert_batches world payload total size (start :: starts) k
                 inserted_records (idle tbl next, log)
  = (Raise cause,
     (idle (tbl ++ chunk_rows world payload total size [start] k next)
           (next + Z.of_nat
                     (List.length
                        (chunk_rows world payload total size [start] k next))),
      (log ++ inserting total size [start])%list)).
Proof.
  intro Hw. cbn [insert_batches chunk_rows]. rewrite Hw. simpl now_of.
  unfold bindM at 1. unfold info at 1, modify at 1.
  simpl fst; simpl snd. unfold bindM at 1.
  rewrite save_and_fetch_query_fails, !app_nil_r, insert_rows_length.
  reflexivity.
Qed.

(** X16: when the query that reads a chunk back fails, the chunk is
    already committed: bulk ingestion answers HTTP 500 with the cause,
    begins no later chunk, and yet the table holds the rows of that chunk
    together with those of every chunk before it.  If the chunk was the
    last one, every record submitted is persisted although the request
    failed. *)
Theorem bulk_reread_failure_keeps_the_chunk
        (world : nat -> fate) (payload : list DrivingDistanceCreate)
        (s : Store) (log : list log_record) (k : nat) (now : datetime)
        (cause : string)
        (Hwf : store_wf s)
        (Hchunk : (k < chunk_count (List.length payload) 2000)%nat)
        (Hprior : forall j, (j < k)%nat -> exists now', world j = Healthy now')
        (Hfails : world k = QueryFails now cause) :
  let N := List.length payload in
  exists persisted,
    create_large_bulk_records world payload (get_db s, log)
    = (HTTPException 500 ("Database insert failed: " ++ cause),
       (get_db {| table := table s ++ persisted;
                  next_id := next_id s + Z.of_nat (List.length persisted) |},
        (log ++ [Starting N]
             ++ chunk_lines N 2000 (S k)
             ++ [Failed cause])%list))
    /\ Forall2 submitted (firstn (S k * 2000) payload) persisted
    /\ List.length persisted = Nat.min (S k * 2000) N
    /\ (S k = chunk_count N 2000 -> Forall2 submitted payload persisted).
Proof.
  intro N.
  assert (Hsize : (0 < 2000)%nat) by apply Nat.lt_0_succ.
  set (pre := map (fun j => j * 2000)%nat (seq 0 k)).
  set (post := map (fun j => j * 2000)%nat
                   (seq (S k) (chunk_count N 2000 - S k))).
  set (persisted := chunk_rows world payload N 2000
                               (map (fun j => j * 2000)%nat (seq 0 (S k)))
                               0 (next_id s)).
  destruct (first_chunks_rows world payload (S k) (next_id s) Hsize)
    as [Hsub _].
  fold N in Hsub. fold persisted in Hsub.
  assert (Hlen : List.length persisted = Nat.min (S k * 2000) N).
  { rewrite <- (Forall2_length Hsub). apply length_firstn. }
  assert (Hsplit : map (fun j => j * 2000)%nat (seq 0 (S k))
                   = (pre ++ [(k * 2000)%nat])%list).
  { rewrite seq_S, map_app. reflexivity. }
  assert (Hstarts : range 0 N 2000 = (pre ++ (k * 2000)%nat :: post)%list).
  { rewrite (range_chunks Hsize N).
    replace (chunk_count N 2000)
      with (k + S (chunk_count N 2000 - S k))%nat at 1
      by (fold N in Hchunk; lia).
    rewrite seq_app, map_app. reflexivity. }
  assert (Hk : List.length pre = k)
    by (unfold pre; rewrite length_map, length_seq; reflexivity).
  exists persisted.
  split; [|split; [exact Hsub|split; [exact Hlen|]]].
  - destruct s as [tbl next]. simpl table in *; simpl next_id in *.
    unfold create_large_bulk_records. fold N.
    destruct (N =? 0)%nat eqn:E.
    { apply Nat.eqb_eq in E. fold N in Hchunk. rewrite E in Hchunk.
      rewrite (chunk_count_0 Hsize) in Hchunk. lia. }
    unfold bindM at 1. unfold info at 1, modify at 1.
    cbv beta iota zeta. simpl fst; simpl snd.
    rewrite Hstarts. unfold bindM at 1.
    rewrite insert_batches_app.
    change (get_db {| table := tbl; next_id := next |}) with (idle tbl next).
    rewrite (@insert_batches_healthy world payload 2000 N pre 0 tbl next
               [] (log ++ [Starting N])%list).
    + rewrite Hk.
      rewrite (@insert_batches_query_fails world payload N 2000
                 (k * 2000)%nat post k now cause) by exact Hfails.
      unfold bindM, on_session, info, modify, lift, rollback, get_db, idle.
      simpl fst; simpl snd. simpl store.
      unfold persisted. rewrite Hsplit, chunk_rows_app, Hk.
      rewrite chunk_lines_S. unfold pre. rewrite inserting_chunk_lines.
      rewrite ?Nat.add_0_l. cbn [chunk_rows].
      rewrite !app_nil_r, !length_app, !Nat2Z.inj_add, !Z.add_assoc.
      rewrite <- !app_assoc. reflexivity.
    + intros j Hj. apply Hprior. now rewrite Hk in Hj.
    + exact Hwf.
  - intro Hlast. rewrite Hlast in Hsub.
    rewrite firstn_all2 in Hsub by apply (chunk_count_covers Hsize).
    exact Hsub.
Qed.

Lemma bulk_reread_failure_keeps_the_chunk_witness :
  let payload := Examples.candidates 3 in
  let s := Examples.june_store in
  let world := fun _ : nat => QueryFails Examples.noon "server closed" in
  exists persisted,
    create_large_bulk_records world payload (get_db s, [])
    = (HTTPException 500 "Database insert failed: server closed",
       (get_db {| table := table s ++ persisted;
                  next_id := next_id s + Z.of_nat (List.length persisted) |},
        ([] ++ [Starting (List.length payload)]
            ++ chunk_lines (List.length payload) 2000 1
            ++ [Failed "server closed"])%list))
    /\ Forall2 submitted (firstn (1 * 2000) payload) persisted
    /\ List.length persisted = Nat.min (1 * 2000) (List.length payload)
    /\ (1%nat = chunk_count (List.length payload) 2000 ->
        Forall2 submitted payload persisted).
Proof.
  intros payload s world.
  apply (@bulk_reread_failure_keeps_the_chunk world payload s [] 0%nat
           Examples.noon "server closed").
  - unfold store_wf, s. simpl. repeat constructor.
  - vm_compute. repeat constructor.
  - intros j Hj. lia.
  - reflexivity.
Defined.

(* ================================================================== *)
(** * Ingest, then read *)
(* ================================================================== *)

Lemma Forall2_left_In (A B : Type) (R : A -> B -> Prop) (xs : list A)
      (ys : list B) (x : A) :
  Forall2 R xs ys -> In x xs -> exists y, In y ys /\ R x y.
Proof.
  induction 1 as [|a b xs ys Hab Hrest IH]; simpl; [tauto|].
  intros [Hx|Hx].
  - subst. exists b. auto.
  - destruct (IH Hx) as [y [Hy Hxy]]. exists y. auto.
Qed.

(** The store a successful bulk ingestion leaves behind. *)
Lemma bulk_returned (world : nat -> fate)
      (payload : list DrivingDistanceCreate) (s : Store)
      (log log1 : list log_record) (inserted : list DrivingDistance)
      (db1 : Session) :
  store_wf s ->
  create_large_bulk_records world payload (get_db s, log)
  = (Ok inserted, (db1, log1)) ->
  table (close db1) = (table s ++ inserted)%list
  /\ rows (get_db (close db1)) = (table s ++ inserted)%list
  /\ Forall2 submitted payload inserted.
Proof.
  intros Hwf Hbulk.
  assert (Hsize : (0 < 2000)%nat) by apply Nat.lt_0_succ.
  destruct (bulk_outcome world payload log Hwf)
    as [m [res [next' [log' [Hrun [Hm [Hnext Hok]]]]]]].
  rewrite Hbulk in Hrun. inversion Hrun as [[Hres Hdb Hlog]].
  destruct (Hok inserted (eq_sym Hres)) as [Hall Hrec].
  try rewrite Hdb. rewrite <- Hrec.
  split; [reflexivity|]. split.
  - unfold rows, close, get_db, rollback. simpl. apply app_nil_r.
  - destruct (first_chunks_rows world payload m (next_id s) Hsize)
      as [Hsub _].
    rewrite <- Hrec in Hsub. rewrite Hall in Hsub.
    rewrite firstn_all2 in Hsub by apply (chunk_count_covers Hsize).
    exact Hsub.
Qed.

(** X17: what bulk ingestion answered with can be read back.  A
    successful ingestion answers with one row for each record submitted,
    and a list request on the store it left returns, for every one of
    these rows that satisfies the criteria, a record equal to it up to
    the rewritten [created_at], provided the matching rows are no more
    than the limit. *)
Theorem ingested_records_are_listed
        (world : nat -> fate) (payload : list DrivingDistanceCreate)
        (s : Store) (log log1 : list log_record)
        (inserted records : list DrivingDistance) (db1 db2 : Session)
        (criteria : DrivingDistanceFilter)
        (Hwf : store_wf s)
        (Hbulk : create_large_bulk_records world payload (get_db s, log)
                 = (Ok inserted, (db1, log1)))
        (Hlist : filter_driving_distance criteria (get_db (close db1))
                 = (Ok records, db2))
        (Hfits : Z.of_nat (List.length
                             (matching criteria (table s ++ inserted)))
                 <= limit criteria) :
  List.length inserted = List.length payload
  /\ forall r, In r inserted -> satisfies criteria r = true ->
               exists r', In r' records /\ stored_part r' = stored_part r.
Proof.
  destruct (bulk_returned Hwf Hbulk) as [_ [Hrows Hsub]].
  split; [symmetry; exact (Forall2_length Hsub)|].
  intros r Hr Hsat.
  apply list_fetches in Hlist as [_ Hrel].
  rewrite Hrows in Hrel.
  rewrite firstn_all2 in Hrel by (rewrite order_by_length; lia).
  assert (Hin : In r (Sql.order_by date_asc
                                   (matching criteria (table s ++ inserted)))).
  { apply order_by_In. unfold matching. apply filter_In.
    split; [apply in_or_app; now right|exact Hsat]. }
  destruct (Forall2_left_In Hrel Hin) as [r' [Hr' Hloc]].
  exists r'. split; [exact Hr'|now apply localized_stored_part].
Qed.

Lemma ingested_records_are_listed_witness :
  let criteria := {| plate_number := Some ["A1"]; start_at := None;
                     end_at := None; limit := 500 |} in
  let out := create_large_bulk_records Examples.healthy
                                       (Examples.candidates 3)
                                       (get_db Examples.june_store, []) in
  let inserted := match fst out with Ok l => l | _ => [] end in
  let db1 := fst (snd out) in
  let listed := filter_driving_distance criteria (get_db (close db1)) in
  let records := match fst listed with Ok l => l | _ => [] end in
  out = (Ok inserted, (db1, snd (snd out)))
  /\ listed = (Ok records, snd listed)
  /\ List.length records = 5%nat
  /\ List.length inserted = List.length (Examples.candidates 3)
  /\ forall r, In r inserted -> satisfies criteria r = true ->
               exists r', In r' records /\ stored_part r' = stored_part r.
Proof.
  intros criteria out inserted db1 listed records.
  assert (Hbulk : out = (Ok inserted, (db1, snd (snd out))))
    by (vm_compute; reflexivity).
  assert (Hlist : listed = (Ok records, snd listed))
    by (vm_compute; reflexivity).
  split; [exact Hbulk|]. split; [exact Hlist|].
  split; [vm_compute; reflexivity|].
  apply (@ingested_records_are_listed
           Examples.healthy (Examples.candidates 3) Examples.june_store
           [] (snd (snd out)) inserted records db1 (snd listed) criteria).
  - unfold store_wf. simpl. repeat constructor.
  - exact Hbulk.
  - exact Hlist.
  - vm_compute. discriminate.
Defined.

Lemma sum_of_plate_app (p : option string) (a b : list DrivingDistance) :
  sum_of_plate p (a ++ b) = sum_of_plate p a + sum_of_plate p b.
Proof.
  unfold sum_of_plate. rewrite filter_app, map_app.
  induction (map distance_or_0 (filter _ a)) as [|x l IH]; simpl; lia.
Qed.

(** X18: ingestion adds to the aggregate exactly what was inserted.
    After a successful bulk ingestion, each total the aggregate reports
    on the store it left is the sum over the rows that matched before
    plus the sum over the inserted rows that match, for that plate. *)
Theorem ingestion_adds_to_the_aggregate
        (world : nat -> fate) (payload : list DrivingDistanceCreate)
        (s : Store) (log log1 : list log_record)
        (inserted : list DrivingDistance) (db1 db2 : Session)
        (criteria : DrivingDistanceFilter) (resp : summary_response)
        (Hwf : store_wf s)
        (Hbulk : create_large_bulk_records world payload (get_db s, log)
                 = (Ok inserted, (db1, log1)))
        (Hsum : summarize_distance criteria (get_db (close db1))
                = (Ok resp, db2)) :
  forall row,
    In row (summary resp) ->
    total_distance row
    = sum_of_plate (summary_plate_number row) (matching criteria (table s))
      + sum_of_plate (summary_plate_number row) (matching criteria inserted).
Proof.
  destruct (bulk_returned Hwf Hbulk) as [_ [Hrows _]].
  rewrite summarize_distance_steps, Hrows in Hsum. cbv zeta in Hsum.
  intros row Hrow.
  destruct (Sql.order_by plate_asc _) as [|g gs] eqn:Er; [discriminate|].
  rewrite <- Er in Hsum. inversion Hsum; subst resp; clear Hsum.
  simpl in Hrow. apply in_map_iff in Hrow as [g' [Hg' Hin]].
  subst row. simpl.
  destruct (grouped_row_total Hin) as [_ Htotal].
  rewrite Htotal. unfold matching. rewrite filter_app.
  apply sum_of_plate_app.
Qed.

Lemma ingestion_adds_to_the_aggregate_witness :
  let criteria := {| plate_number := Some ["A1"]; start_at := None;
                     end_at := None; limit := 500 |} in
  let out := create_large_bulk_records Examples.healthy
                                       (Examples.candidates 3)
                                       (get_db Examples.june_store, []) in
  let inserted := match fst out with Ok l => l | _ => [] end in
  let db1 := fst (snd out) in
  let summed := summarize_distance criteria (get_db (close db1)) in
  let resp := match fst summed with
              | Ok r => r
              | _ => {| period := (None, None); summary := [] |}
              end in
  out = (Ok inserted, (db1, snd (snd out)))
  /\ summed = (Ok resp, snd summed)
  /\ map total_distance (summary resp) = [1800]
  /\ forall row,
       In row (summary resp) ->
       total_distance row
       = sum_of_plate (summary_plate_number row)
                      (matching criteria (table Examples.june_store))
         + sum_of_plate (summary_plate_number row)
                        (matching criteria inserted).
Proof.
  intros criteria out inserted db1 summed resp.
  assert (Hbulk : out = (Ok inserted, (db1, snd (snd out))))
    by (vm_compute; reflexivity).
  assert (Hsum : summed = (Ok resp, snd summed))
    by (vm_compute; reflexivity).
  split; [exact Hbulk|]. split; [exact Hsum|].
  split; [vm_compute; reflexivity|].
  apply (@ingestion_adds_to_the_aggregate
           Examples.healthy (Examples.candidates 3) Examples.june_store
           [] (snd (snd out)) inserted db1 (snd summed) criteria resp).
  - unfold store_wf. simpl. repeat constructor.
  - exact Hbulk.
  - exact Hsum.
Defined.
